(** * KBFS metadata journal and MD-server error taxonomy

    A shallow embedding of the parts of [libkbfs] that the specification of
    the per-folder metadata journal talks about:

    - the MD-server error codes, the typed errors with their [ToStatus]
      methods and [MDServerErrorUnwrapper.UnwrapError] (mdserver errors file);
    - [splitExtension] of the conflict renamer;
    - the test doubles of the journal tests ([shimMDServer],
      [limitedCryptoSigner]);
    - the MD journal itself ([convertToBranch], [flushOne], [clear]), whose
      implementation file is not part of the sources at hand and is modelled
      from the specification. *)

From Stdlib Require Import ZArith Ascii String List Lia Bool.
From stdpp Require Import base option list gmap strings pretty.

Local Open Scope string_scope.
Local Open Scope Z_scope.

(** ** Identifiers

    [MdID] wraps a hash, which in Go is a string of bytes; [TlfID] and
    [BranchID] are 16-byte arrays.  All three are modelled by their byte
    strings.  The zero value of a Go array is all zero bytes, the zero value
    of a hash is the empty string. *)

Definition MdID := string.
Definition TlfID := string.
Definition BranchID := string.
Definition MetadataRevision := Z.

Definition zero_byte : ascii := Ascii.zero.

Fixpoint zero_bytes (n : nat) : string :=
  match n with
  | O => EmptyString
  | S n' => String zero_byte (zero_bytes n')
  end.

Definition TlfIDByteLen : nat := 16.
Definition BranchIDByteLen : nat := 16.

Definition zeroMdID : MdID := EmptyString.
Definition zeroTlfID : TlfID := zero_bytes TlfIDByteLen.
Definition NullBranchID : BranchID := zero_bytes BranchIDByteLen.

(** [FakeBranchID b]: an array literal whose first byte is [b]. *)
Definition FakeBranchID (b : ascii) : BranchID :=
  String b (zero_bytes (BranchIDByteLen - 1)).

(** ** keybase1.Status and Go error values *)

Record StringKVPair := mkStringKVPair { Key : string; Value : string }.

Record Status := mkStatus {
  Code : Z;
  Name : string;
  Desc : string;
  Fields : list StringKVPair
}.

(** An error built by [errors.New]; the code only ever calls [Error()] on
    it. *)
Record errorString := errors_New { errorString_Error : string }.

Definition StatusCodeMDServerError : Z := 2800.
Definition StatusCodeMDServerErrorBadRequest : Z := 2801.
Definition StatusCodeMDServerErrorConflictRevision : Z := 2802.
Definition StatusCodeMDServerErrorConflictPrevRoot : Z := 2803.
Definition StatusCodeMDServerErrorConflictDiskUsage : Z := 2804.
Definition StatusCodeMDServerErrorLocked : Z := 2805.
Definition StatusCodeMDServerErrorUnauthorized : Z := 2806.
Definition StatusCodeMDServerErrorThrottle : Z := 2807.
Definition StatusCodeMDServerErrorConditionFailed : Z := 2808.
Definition StatusCodeMDServerErrorWriteAccess : Z := 2809.
Definition StatusCodeMDServerErrorConflictFolderMapping : Z := 2810.

(** The error values that cross the journal/server boundary.  An [Err]
    field is a Go interface value and may be nil ([None]).  The last three
    constructors are not MD-server errors: [AppStatusError] is libkb's
    generic application error, [contextCanceled] is [context.Canceled] and
    [otherError] any error built with [errors.New] or [fmt.Errorf]. *)
Inductive error :=
| MDServerError (Err : option errorString)
| MDServerErrorBadRequest (Reason : string)
| MDServerErrorConflictRevision (desc : string) (Expected Actual : MetadataRevision)
| MDServerErrorConflictPrevRoot (desc : string) (Expected Actual : MdID)
| MDServerErrorConflictDiskUsage (desc : string) (Expected Actual : Z)
| MDServerErrorLocked
| MDServerErrorUnauthorized (Err : option errorString)
| MDServerErrorWriteAccess
| MDServerErrorThrottle (Err : option errorString)
| MDServerErrorConditionFailed (Err : option errorString)
| MDServerErrorConflictFolderMapping (desc : string) (Expected Actual : TlfID)
| AppStatusError (code : Z) (name desc : string) (fields : gmap string string)
| contextCanceled
| otherError (msg : string).

(** The call [e.Err.Error()] on the wrapped error: a nil dereference (a
    panic, [None]) when [Err] is nil. *)
Definition Err_Error (Err : option errorString) : option string :=
  errorString_Error <$> Err.

(** [MDServerErrorThrottle.ToStatus]. *)
Definition MDServerErrorThrottle_ToStatus (Err : option errorString)
  : option Status :=
  match Err_Error Err with
  | None => None
  | Some msg =>
      Some {| Code := StatusCodeMDServerErrorThrottle;
              Name := "THROTTLE";
              Desc := msg;
              Fields := [] |}
  end.

(** [MDServerErrorConditionFailed.ToStatus]. *)
Definition MDServerErrorConditionFailed_ToStatus (Err : option errorString)
  : option Status :=
  match Err_Error Err with
  | None => None
  | Some msg =>
      Some {| Code := StatusCodeMDServerErrorThrottle;
              Name := "CONDITION_FAILED";
              Desc := msg;
              Fields := [] |}
  end.

(** ** MDServerErrorUnwrapper *)

(** The [interface{}] argument of [UnwrapError]: either a
    [*keybase1.Status] (possibly a nil pointer) or a value of any other
    dynamic type (the nil interface included). *)
Inductive interface_arg :=
| ArgStatus (s : option Status)
| ArgOther.

(** The loop [for _, f := range s.Fields { ase.Fields[f.Key] = f.Value }]
    over a map that starts empty. *)
Definition collect_fields (fs : list StringKVPair) : gmap string string :=
  foldl (fun (m : gmap string string) f => <[Key f := Value f]> m) ∅ fs.

Definition UnwrapError (arg : interface_arg) : option error * option error :=
  match arg with
  | ArgOther =>
      (None,
       Some (otherError
         "Error converting arg to keybase1.Status object in MDServerErrorUnwrapper.UnwrapError"))
  | ArgStatus None => (None, None)
  | ArgStatus (Some s) =>
      if Code s =? 0 then (None, None)
      else
        let appError :=
          if Code s =? StatusCodeMDServerError then
            MDServerError (Some (errors_New (Desc s)))
          else if Code s =? StatusCodeMDServerErrorBadRequest then
            MDServerErrorBadRequest (Desc s)
          else if Code s =? StatusCodeMDServerErrorConflictRevision then
            MDServerErrorConflictRevision (Desc s) 0 0
          else if Code s =? StatusCodeMDServerErrorConflictPrevRoot then
            MDServerErrorConflictPrevRoot (Desc s) zeroMdID zeroMdID
          else if Code s =? StatusCodeMDServerErrorConflictDiskUsage then
            MDServerErrorConflictDiskUsage (Desc s) 0 0
          else if Code s =? StatusCodeMDServerErrorLocked then
            MDServerErrorLocked
          else if Code s =? StatusCodeMDServerErrorUnauthorized then
            MDServerErrorUnauthorized None
          else if Code s =? StatusCodeMDServerErrorThrottle then
            MDServerErrorThrottle (Some (errors_New (Desc s)))
          else if Code s =? StatusCodeMDServerErrorConditionFailed then
            MDServerErrorConditionFailed (Some (errors_New (Desc s)))
          else if Code s =? StatusCodeMDServerErrorWriteAccess then
            MDServerErrorWriteAccess
          else if Code s =? StatusCodeMDServerErrorConflictFolderMapping then
            MDServerErrorConflictFolderMapping (Desc s) zeroTlfID zeroTlfID
          else
            AppStatusError (Code s) (Name s) (Desc s) (collect_fields (Fields s))
        in
        (Some appError, None)
  end.

(** The error kinds of the taxonomy and the kind of an error value. *)
Inductive ErrorKind :=
| ServerError | BadRequest | ConflictRevision | ConflictPrevRoot
| ConflictDiskUsage | Locked | Unauthorized | Throttle | ConditionFailed
| WriteAccess | ConflictFolderMapping.

Definition kind_of (e : error) : option ErrorKind :=
  match e with
  | MDServerError _ => Some ServerError
  | MDServerErrorBadRequest _ => Some BadRequest
  | MDServerErrorConflictRevision _ _ _ => Some ConflictRevision
  | MDServerErrorConflictPrevRoot _ _ _ => Some ConflictPrevRoot
  | MDServerErrorConflictDiskUsage _ _ _ => Some ConflictDiskUsage
  | MDServerErrorLocked => Some Locked
  | MDServerErrorUnauthorized _ => Some Unauthorized
  | MDServerErrorWriteAccess => Some WriteAccess
  | MDServerErrorThrottle _ => Some Throttle
  | MDServerErrorConditionFailed _ => Some ConditionFailed
  | MDServerErrorConflictFolderMapping _ _ _ => Some ConflictFolderMapping
  | AppStatusError _ _ _ _ | contextCanceled | otherError _ => None
  end.

(** The taxonomy as the specification lists it (section 4.5): kind and
    code. *)
Definition taxonomy : list (ErrorKind * Z) :=
  [ (ServerError, 2800); (BadRequest, 2801); (ConflictRevision, 2802);
    (ConflictPrevRoot, 2803); (ConflictDiskUsage, 2804); (Locked, 2805);
    (Unauthorized, 2806); (Throttle, 2807); (ConditionFailed, 2808);
    (WriteAccess, 2809); (ConflictFolderMapping, 2810) ].

Definition taxonomy_kind (code : Z) : option ErrorKind :=
  fst <$> List.find (fun p => snd p =? code) taxonomy.

(** ** splitExtension (conflict renamer)

    Go strings are byte strings and [path[i]] is a byte, as [String.get] on
    a Rocq string.  [path[a:b]] is [substring a (b - a) path]. *)

Definition slice (path : string) (a b : nat) : string :=
  substring a (b - a) path.

Definition is_sep (c : option ascii) : bool :=
  match c with
  | Some c => (Ascii.eqb c "/" || Ascii.eqb c "\")%bool
  | None => false
  end.

(** The body of the loop of [splitExtension] at index [i], for [i > 0];
    the recursive call is the next iteration ([i--]). *)
Fixpoint splitExtension_loop (path : string) (i : nat) : string * string :=
  match i with
  | O => (path, "")
  | S i' =>
      match String.get i path with
      | Some c =>
          if Ascii.eqb c "." then
            let i2 :=
              if ((4 <=? i)%nat && String.eqb (slice path (i - 4) i) ".tar")%bool
              then (i - 4)%nat else i in
            if ((i2 =? 0)%nat || is_sep (String.get (i2 - 1) path))%bool
            then (path, "")
            else (slice path 0 i2, slice path i2 (String.length path))
          else if (Ascii.eqb c "/" || Ascii.eqb c "\" || Ascii.eqb c " ")%bool
          then (path, "")
          else splitExtension_loop path i'
      | None => splitExtension_loop path i'
      end
  end.

Definition splitExtension (path : string) : string * string :=
  splitExtension_loop path (String.length path - 1).

(** ** Revisions

    The revision record of the data model.  The declarations of these types
    are not among the sources; the fields are the ones the specification
    lists and the accessors the tests call. *)

Definition Bytes := string.
Definition UID := string.
Definition VerifyingKey := string.

Inductive MergeStatus := Merged | Unmerged.

Record SignatureInfo := mkSignatureInfo {
  Signature : Bytes;
  SigVerifyingKey : VerifyingKey
}.

Record BareRootMetadata := mkBareRootMetadata {
  ID : TlfID;
  Writers : list UID;
  Readers : list UID;
  Revision : MetadataRevision;
  BID : BranchID;
  MergedStatus : MergeStatus;
  PrevRoot : MdID;
  LastModifyingWriter : UID;
  LastModifyingUser : UID;
  SerializedPrivateMetadata : Bytes;
  KeyBundles : Bytes;
  DiskUsage : Z;
  WriterMetadataSigInfo : SignatureInfo
}.

Record RootMetadataSigned := mkRootMetadataSigned {
  MD : BareRootMetadata;
  SigInfo : SignatureInfo
}.

Record ImmutableBareRootMetadata := mkImmutableBareRootMetadata {
  rmds : RootMetadataSigned;
  mdID : MdID
}.

Definition SetBranchID (bid : BranchID) (md : BareRootMetadata) : BareRootMetadata :=
  mkBareRootMetadata (ID md) (Writers md) (Readers md) (Revision md) bid
    (MergedStatus md) (PrevRoot md) (LastModifyingWriter md)
    (LastModifyingUser md) (SerializedPrivateMetadata md) (KeyBundles md)
    (DiskUsage md) (WriterMetadataSigInfo md).

Definition SetUnmerged (md : BareRootMetadata) : BareRootMetadata :=
  mkBareRootMetadata (ID md) (Writers md) (Readers md) (Revision md) (BID md)
    Unmerged (PrevRoot md) (LastModifyingWriter md)
    (LastModifyingUser md) (SerializedPrivateMetadata md) (KeyBundles md)
    (DiskUsage md) (WriterMetadataSigInfo md).

Definition SetPrevRoot (prevRoot : MdID) (md : BareRootMetadata) : BareRootMetadata :=
  mkBareRootMetadata (ID md) (Writers md) (Readers md) (Revision md) (BID md)
    (MergedStatus md) prevRoot (LastModifyingWriter md)
    (LastModifyingUser md) (SerializedPrivateMetadata md) (KeyBundles md)
    (DiskUsage md) (WriterMetadataSigInfo md).

Definition SetWriterMetadataSigInfo (sigInfo : SignatureInfo) (md : BareRootMetadata)
  : BareRootMetadata :=
  mkBareRootMetadata (ID md) (Writers md) (Readers md) (Revision md) (BID md)
    (MergedStatus md) (PrevRoot md) (LastModifyingWriter md)
    (LastModifyingUser md) (SerializedPrivateMetadata md) (KeyBundles md)
    (DiskUsage md) sigInfo.

#[global] Instance MergeStatus_eq_dec : EqDecision MergeStatus.
Proof. solve_decision. Defined.

(** ** Results, contexts and the collaborators' interfaces *)

Inductive result (A : Type) :=
| Ok (a : A)
| Err (e : error).
Arguments Ok {A} a.
Arguments Err {A} e.

(** A [context.Context], as far as the code looks at it: whether it is
    done.  [ctx.Err()] of a cancelled context is [context.Canceled]. *)
Record context := mkContext { ctx_done : bool }.

Definition Background : context := {| ctx_done := false |}.
Definition WithCancel_cancelled (parent : context) : context := {| ctx_done := true |}.
Definition ctx_Err (ctx : context) : option error :=
  if ctx_done ctx then Some contextCanceled else None.

(** The codec: a deterministic encoding of the revision and of its writer
    portion. *)
Class Codec := {
  Encode : BareRootMetadata -> Bytes;
  GetSerializedWriterMetadata : BareRootMetadata -> Bytes
}.

(** The hash behind [MakeMdID]. *)
Class CryptoCommon := { DefaultHash : Bytes -> MdID }.

(** [cryptoSigner]: [Sign] may fail and may change the signer. *)
Class cryptoSigner (S : Type) :=
  Sign : context -> Bytes -> S -> result SignatureInfo * S.

(** The two server calls the journal makes. *)
Class MDServer (S : Type) := {
  Put : context -> RootMetadataSigned -> S -> option error * S;
  GetRange : context -> TlfID -> BranchID -> MergeStatus ->
             MetadataRevision -> MetadataRevision -> S ->
             result (list RootMetadataSigned) * S
}.

Definition MakeMdID `{Codec} `{CryptoCommon} (md : BareRootMetadata) : MdID :=
  DefaultHash (Encode md).

(** ** Test doubles of the journal tests *)

(** [limitedCryptoSigner]: a signer that fails once [remaining] calls have
    been made. *)
Record limitedCryptoSigner (S : Type) := mkLimitedCryptoSigner {
  inner : S;
  remaining : Z
}.
Arguments mkLimitedCryptoSigner {S} inner remaining.
Arguments inner {S} l.
Arguments remaining {S} l.

#[global] Instance limitedCryptoSigner_Sign {S} `{cryptoSigner S}
  : cryptoSigner (limitedCryptoSigner S) :=
  fun ctx msg s =>
    if remaining s <=? 0 then
      (Err (otherError "No more Sign calls left"), s)
    else
      let r := Sign ctx msg (inner s) in
      (fst r, mkLimitedCryptoSigner (snd r) (remaining s - 1)).

(** [shimMDServer]: records what is put, and returns the error and the range
    it was told to return next.  A nil slice is the empty list. *)
Record shimMDServer := mkShimMDServer {
  rmdses : list RootMetadataSigned;
  nextGetRange : list RootMetadataSigned;
  nextErr : option error
}.

Definition shimMDServer_GetRange (ctx : context) (id : TlfID) (bid : BranchID)
  (mStatus : MergeStatus) (start stop : MetadataRevision) (s : shimMDServer)
  : result (list RootMetadataSigned) * shimMDServer :=
  (Ok (nextGetRange s), mkShimMDServer (rmdses s) [] (nextErr s)).

Definition shimMDServer_Put (ctx : context) (r : RootMetadataSigned) (s : shimMDServer)
  : option error * shimMDServer :=
  match nextErr s with
  | Some err => (Some err, mkShimMDServer (rmdses s) (nextGetRange s) None)
  | None =>
      let s' := mkShimMDServer (rmdses s ++ [r]) (nextGetRange s) None in
      if ctx_done ctx then (ctx_Err ctx, s') else (None, s')
  end.

#[global] Instance shimMDServer_MDServer : MDServer shimMDServer :=
  {| Put := shimMDServer_Put; GetRange := shimMDServer_GetRange |}.

(** [signRMDSForTest]: sign the writer metadata, store the signature, then
    sign the encoding of the whole revision.  Here the failures of [Sign]
    are returned instead of failing the test. *)
Definition signRMDS {S} `{Codec} `{cryptoSigner S} (ctx : context)
  (md : BareRootMetadata) (signer : S) : result RootMetadataSigned * S :=
  match Sign ctx (GetSerializedWriterMetadata md) signer with
  | (Err e, signer1) => (Err e, signer1)
  | (Ok wsig, signer1) =>
      let md1 := SetWriterMetadataSigInfo wsig md in
      match Sign ctx (Encode md1) signer1 with
      | (Err e, signer2) => (Err e, signer2)
      | (Ok rsig, signer2) => (Ok (mkRootMetadataSigned md1 rsig), signer2)
      end
  end.

(** ** The world of a journal operation

    A journal operation runs against mutable objects: the journal itself,
    the signer it is handed, the MD server it is handed, and the entropy
    that [MakeRandomBranchID] reads.  [world] holds them; an operation is a
    function from a world to a result and the world it leaves.  A failed
    operation still leaves a world (a signer that was used stays used). *)

Record mdJournal := mkMDJournal {
  log : list ImmutableBareRootMetadata;
  branchID : BranchID
}.

Record world (Signer Server : Type) := mkWorld {
  signer : Signer;
  entropy : list BranchID;
  mdserver : Server;
  journal : mdJournal
}.
Arguments mkWorld {Signer Server} signer entropy mdserver journal.
Arguments signer {Signer Server} w.
Arguments entropy {Signer Server} w.
Arguments mdserver {Signer Server} w.
Arguments journal {Signer Server} w.

Definition M (W A : Type) : Type := W -> result A * W.

Definition ret {W A} (a : A) : M W A := fun w => (Ok a, w).

Definition fail {W A} (e : error) : M W A := fun w => (Err e, w).

Definition bind {W A B} (m : M W A) (k : A -> M W B) : M W B :=
  fun w =>
    match m w with
    | (Ok a, w1) => k a w1
    | (Err e, w1) => (Err e, w1)
    end.

Notation "x <- m ;; k" := (bind m (fun x => k))
  (at level 100, m at next level, right associativity).
Notation "m ;;; k" := (bind m (fun _ => k))
  (at level 100, right associativity).

Section JournalModel.
Context {Signer Server : Type}.
Context {signerOps : cryptoSigner Signer} {serverOps : MDServer Server}.
Context {codec : Codec} {crypto : CryptoCommon}.

Local Abbreviation W := (world Signer Server).

Definition getJournal : M W mdJournal := fun w => (Ok (journal w), w).

Definition setJournal (j : mdJournal) : M W unit :=
  fun w => (Ok tt, mkWorld (signer w) (entropy w) (mdserver w) j).

(** A call of the server's [Put]; the error it returns is the value. *)
Definition callPut (ctx : context) (r : RootMetadataSigned) : M W (option error) :=
  fun w =>
    let p := Put ctx r (mdserver w) in
    (Ok (fst p), mkWorld (signer w) (entropy w) (snd p) (journal w)).

(** A call of the server's [GetRange]. *)
Definition callGetRange (ctx : context) (id : TlfID) (bid : BranchID)
  (mStatus : MergeStatus) (start stop : MetadataRevision)
  : M W (list RootMetadataSigned) :=
  fun w =>
    let p := GetRange ctx id bid mStatus start stop (mdserver w) in
    (fst p, mkWorld (signer w) (entropy w) (snd p) (journal w)).

(** Modelled from the spec: [MakeRandomBranchID] of the crypto collaborator
    is missing from the sources.  Section 4.3 asks for "a fresh random
    non-null BranchID": the generator reads 16-byte values from the entropy
    source until one is not the null id, and fails when the source cannot
    be read any more. *)
Fixpoint drawBranchID (src : list BranchID) : option (BranchID * list BranchID) :=
  match src with
  | [] => None
  | b :: src' =>
      if decide (b = NullBranchID) then drawBranchID src' else Some (b, src')
  end.

(** Modelled from the spec: [MakeRandomBranchID], the call that draws the
    branch id from the world's entropy and uses up what it read. *)
Definition MakeRandomBranchID : M W BranchID :=
  fun w =>
    match drawBranchID (entropy w) with
    | None => (Err (otherError "cannot read random bytes"), w)
    | Some (b, src') =>
        (Ok b, mkWorld (signer w) src' (mdserver w) (journal w))
    end.

(** Signing inside an operation: [signRMDS] with the world's signer. *)
Definition signMD (ctx : context) (md : BareRootMetadata) : M W RootMetadataSigned :=
  fun w =>
    let r := signRMDS ctx md (signer w) in
    (fst r, mkWorld (snd r) (entropy w) (mdserver w) (journal w)).

(** Modelled from the spec: [CheckValidSuccessor] is missing from the
    sources.  Section 4.1: the next revision number is this one plus one,
    its previous root is [prevID], and branch id and merge status are the
    same, with a distinct error kind for each violation. *)
Inductive SuccessorError :=
| MDRevisionMismatch
| MDPrevRootMismatch
| MDBranchMismatch
| MDMergeStatusMismatch.

Definition CheckValidSuccessor (this : BareRootMetadata) (prevID : MdID)
  (next : BareRootMetadata) : option SuccessorError :=
  if negb (Revision next =? Revision this + 1) then Some MDRevisionMismatch
  else if negb (bool_decide (PrevRoot next = prevID)) then Some MDPrevRootMismatch
  else if negb (bool_decide (BID next = BID this)) then Some MDBranchMismatch
  else if negb (bool_decide (MergedStatus next = MergedStatus this))
  then Some MDMergeStatusMismatch
  else None.

(** Every adjacent pair of entries passes [CheckValidSuccessor], the way the
    journal tests check a range of entries. *)
Fixpoint chain_valid (es : list ImmutableBareRootMetadata) : Prop :=
  match es with
  | a :: ((b :: _) as rest) =>
      CheckValidSuccessor (MD (rmds a)) (mdID a) (MD (rmds b)) = None
      /\ chain_valid rest
  | _ => True
  end.

(** Modelled from the spec: the on-disk ordered log of section 4.2, as the
    sequence of its live entries, oldest first. *)
Definition log_append {A} (l : list A) (x : A) : list A := l ++ [x].
Definition log_removeEarliest {A} (l : list A) : list A := tail l.
Definition log_clearAll {A} (l : list A) : list A := [].

Definition journal_length (j : mdJournal) : nat := length (log j).

(** Modelled from the spec: step 3 of [convertToBranch] (section 4.3).  Each
    entry in order is cloned, moved to branch [bid], marked unmerged, chained
    to the newly signed predecessor ([prev], none for the first entry),
    signed again and emitted to the temporary log [temp]. *)
Fixpoint convertEntries (ctx : context) (bid : BranchID) (prev : option MdID)
  (temp : list ImmutableBareRootMetadata) (es : list ImmutableBareRootMetadata)
  : M W (list ImmutableBareRootMetadata) :=
  match es with
  | [] => ret temp
  | e :: es' =>
      let md := SetUnmerged (SetBranchID bid (MD (rmds e))) in
      let md := match prev with
                | Some prevID => SetPrevRoot prevID md
                | None => md
                end in
      signed <- signMD ctx md ;;
      let newID := MakeMdID (MD signed) in
      convertEntries ctx bid (Some newID)
        (log_append temp (mkImmutableBareRootMetadata signed newID)) es'
  end.

(** Modelled from the spec: [mdJournal.convertToBranch] is missing from the
    sources.  Section 4.3: fail if the journal is already on a branch;
    generate a fresh non-null branch id; convert every entry into a temporary
    log; only when all entries are signed again, swap the temporary log in
    and set the journal's branch id. *)
Definition convertToBranch (ctx : context) : M W unit :=
  j <- getJournal ;;
  if decide (branchID j = NullBranchID) then
    bid <- MakeRandomBranchID ;;
    temp <- convertEntries ctx bid None [] (log j) ;;
    setJournal (mkMDJournal temp bid)
  else
    fail (otherError "convertToBranch called on a branch").

Definition isRevisionConflict (err : error) : bool :=
  match err with
  | MDServerErrorConflictRevision _ _ _ => true
  | _ => false
  end.

(** The server's tail equals the entry: same MdID. *)
Definition tailEquals (rs : list RootMetadataSigned) (e : ImmutableBareRootMetadata)
  : bool :=
  match last rs with
  | Some r => bool_decide (MakeMdID (MD r) = mdID e)
  | None => false
  end.

Definition removeEarliest : M W unit :=
  j <- getJournal ;;
  setJournal (mkMDJournal (log_removeEarliest (log j)) (branchID j)).

(** Modelled from the spec: [mdJournal.flushOne] is missing from the
    sources.  Section 4.3: an empty journal gives [false]; otherwise the
    earliest entry is put to the server.  On success it is removed.  On a
    revision conflict the server's tail is read with [GetRange]; if it is
    the entry itself the entry is removed, else a merged journal is
    converted to a branch, with [true] returned and the entry kept, and a
    journal on a branch returns the error.  Any other error, a cancellation
    included, is returned and the entry kept.  The specification names no
    outcome for a failing [GetRange]; its error is returned.  (The conflict
    test of the journal drains a journal that met one conflict in as many
    calls as it has entries, so the implementation it ran put the converted
    entry again in the same call; the properties below do not go through
    that branch.) *)
Definition flushOne (ctx : context) : M W bool :=
  j <- getJournal ;;
  match log j with
  | [] => ret false
  | e :: _ =>
      putErr <- callPut ctx (rmds e) ;;
      match putErr with
      | None => removeEarliest ;;; ret true
      | Some err =>
          if isRevisionConflict err then
            let md := MD (rmds e) in
            rs <- callGetRange ctx (ID md) (BID md) (MergedStatus md)
                    (Revision md) (Revision md) ;;
            if tailEquals rs e then removeEarliest ;;; ret true
            else if decide (branchID j = NullBranchID) then
              convertToBranch ctx ;;; ret true
            else fail err
          else fail err
      end
  end.

(** Modelled from the spec: [mdJournal.clear] is missing from the sources.
    Section 4.3: clearing the master branch fails; another branch than the
    journal's is a successful no-op; the journal's own branch empties the
    log and resets the branch id to null. *)
Definition clear (ctx : context) (bid : BranchID) : M W unit :=
  if decide (bid = NullBranchID) then
    fail (otherError "Cannot clear master branch")
  else
    j <- getJournal ;;
    if decide (bid = branchID j) then
      setJournal (mkMDJournal (log_clearAll (log j)) NullBranchID)
    else ret tt.

(** What step 3 of [convertToBranch] makes of the entries [es], entry by
    entry: [new] has the same revisions on branch [bid], unmerged, each
    chained to its predecessor in [new] (the first to [prev], or to its old
    previous root when there is none) and stored with its own MdID. *)
Fixpoint converted (bid : BranchID) (prev : option MdID)
  (es new : list ImmutableBareRootMetadata) : Prop :=
  match es, new with
  | [], [] => True
  | e :: es', n :: new' =>
      BID (MD (rmds n)) = bid
      /\ MergedStatus (MD (rmds n)) = Unmerged
      /\ Revision (MD (rmds n)) = Revision (MD (rmds e))
      /\ PrevRoot (MD (rmds n))
         = match prev with
           | Some prevID => prevID
           | None => PrevRoot (MD (rmds e))
           end
      /\ mdID n = MakeMdID (MD (rmds n))
      /\ converted bid (Some (mdID n)) es' new'
  | _, _ => False
  end.

(** All entries are on branch [bid] and unmerged. *)
Definition all_on_branch (bid : BranchID) (es : list ImmutableBareRootMetadata)
  : Prop :=
  Forall (fun e => BID (MD (rmds e)) = bid
                   /\ MergedStatus (MD (rmds e)) = Unmerged) es.

Definition revisions (es : list ImmutableBareRootMetadata) : list MetadataRevision :=
  (fun e => Revision (MD (rmds e))) <$> es.

(** An operation that leaves the journal as it found it, whatever it
    returns. *)
Definition keeps_journal {A} (m : M W A) : Prop :=
  forall w r w', m w = (r, w') -> journal w' = journal w.

End JournalModel.

(** ** Stand-ins for the collaborators, for running the model

    The codec, the hash and the signature scheme are outside the model; the
    journal only needs them to be functions.  These stand-ins keep their
    inputs readable: an encoding lists fields, a hash wraps its input and a
    signature is the key followed by the message. *)

Definition exampleTlfID : TlfID := String "001" (zero_bytes (TlfIDByteLen - 1)).

Definition statusByte (m : MergeStatus) : string :=
  match m with Merged => "M" | Unmerged => "U" end.

#[global] Instance exampleCodec : Codec := {|
  Encode md :=
    String.concat "|"
      [ID md; BID md; statusByte (MergedStatus md); PrevRoot md;
       SerializedPrivateMetadata md; Signature (WriterMetadataSigInfo md)];
  GetSerializedWriterMetadata md :=
    String.concat "|" [ID md; BID md; SerializedPrivateMetadata md]
|}.

#[global] Instance exampleCrypto : CryptoCommon :=
  {| DefaultHash b := String.append "h:" b |}.

Record cryptoSignerLocal := mkCryptoSignerLocal { signingKey : string }.

Definition localSign (s : cryptoSignerLocal) (msg : Bytes) : SignatureInfo :=
  mkSignatureInfo (String.append (signingKey s) msg) (signingKey s).

#[global] Instance cryptoSignerLocal_Sign : cryptoSigner cryptoSignerLocal :=
  fun ctx msg s => (Ok (localSign s msg), s).

Definition exampleSigner : cryptoSignerLocal := mkCryptoSignerLocal "k1".

(** A signed merged revision, as [makeMDForTest] followed by a put makes
    them. *)
Definition exampleEntry (revision : MetadataRevision) (prevRoot : MdID)
  : ImmutableBareRootMetadata :=
  let md := mkBareRootMetadata exampleTlfID ["uid1"] [] revision NullBranchID
              Merged prevRoot "uid1" "uid1" "p" "" 0 (mkSignatureInfo "" "") in
  let md1 := SetWriterMetadataSigInfo
               (localSign exampleSigner (GetSerializedWriterMetadata md)) md in
  mkImmutableBareRootMetadata
    (mkRootMetadataSigned md1 (localSign exampleSigner (Encode md1)))
    (MakeMdID md1).

Fixpoint exampleChain (n : nat) (revision : MetadataRevision) (prevRoot : MdID)
  : list ImmutableBareRootMetadata :=
  match n with
  | O => []
  | S n' =>
      let e := exampleEntry revision prevRoot in
      e :: exampleChain n' (revision + 1) (mdID e)
  end.

(** Three merged entries, revisions 10 to 12. *)
Definition exampleJournal : mdJournal :=
  mkMDJournal (exampleChain 3 10 "r1") NullBranchID.

Definition emptyShim : shimMDServer := mkShimMDServer [] [] None.

Definition exampleWorld : world cryptoSignerLocal shimMDServer :=
  mkWorld exampleSigner [NullBranchID; FakeBranchID "b"] emptyShim exampleJournal.

(** The same journal with a signer that is good for five signatures. *)
Definition limitedWorld : world (limitedCryptoSigner cryptoSignerLocal) shimMDServer :=
  mkWorld (mkLimitedCryptoSigner exampleSigner 5) [FakeBranchID "b"] emptyShim
    exampleJournal.

(** The journal of the double-flush test: one merged entry, revision 10. *)
Definition singleEntry : ImmutableBareRootMetadata := exampleEntry 10 "r1".

Definition singleEntryWorld : world cryptoSignerLocal shimMDServer :=
  mkWorld exampleSigner [FakeBranchID "b"] emptyShim
    (mkMDJournal [singleEntry] NullBranchID).

(** The world after the cancelled flush of that test has put the entry on
    the server, with the conflict and the range the test then arms. *)
Definition afterCancelledFlush : world cryptoSignerLocal shimMDServer :=
  mkWorld exampleSigner [FakeBranchID "b"]
    (mkShimMDServer [rmds singleEntry] [rmds singleEntry]
       (Some (MDServerErrorConflictRevision "" 0 0)))
    (mkMDJournal [singleEntry] NullBranchID).

(** The example journal after its conversion to a branch. *)
Definition branchWorld : world cryptoSignerLocal shimMDServer :=
  snd (convertToBranch Background exampleWorld).

(** A status record whose fields repeat a key. *)
Definition repeatedKeyStatus : Status :=
  mkStatus 1 "GENERIC" "d" [mkStringKVPair "k" "a"; mkStringKVPair "k" "b"].

(** ** Error messages and exported statuses

    The [Error] and [ToStatus] methods of the typed errors, one definition
    per method.  [fmt.Sprintf]'s [%d] prints an integer in decimal; [%v] of
    an [MdID] and [%s] of a [TlfID] call their [String] methods, which are
    declared elsewhere and are taken as given. *)

Class Stringers := {
  MdID_String : MdID -> string;
  TlfID_String : TlfID -> string
}.

Definition Sprintf_d (n : Z) : string := pretty n.

Definition MDServerError_Error (Err : option errorString) : string :=
  match Err with
  | Some err => errorString_Error err
  | None => "Generic error"
  end.

Definition MDServerError_ToStatus (Err : option errorString) : Status :=
  {| Code := StatusCodeMDServerError;
     Name := "SERVER_ERROR";
     Desc := MDServerError_Error Err;
     Fields := [] |}.

Definition MDServerErrorBadRequest_Error (Reason : string) : string :=
  String.append "Bad request: " Reason.

Definition MDServerErrorBadRequest_ToStatus (Reason : string) : Status :=
  {| Code := StatusCodeMDServerErrorBadRequest;
     Name := "BAD_REQUEST";
     Desc := Reason;
     Fields := [] |}.

Definition MDServerErrorConflictRevision_Error (desc : string)
  (Expected Actual : MetadataRevision) : string :=
  if String.eqb desc "" then
    String.concat ""
      ["Conflict: expected revision "; Sprintf_d Expected;
       ", actual "; Sprintf_d Actual]
  else desc.

Definition MDServerErrorConflictRevision_ToStatus (desc : string)
  (Expected Actual : MetadataRevision) : Status :=
  {| Code := StatusCodeMDServerErrorConflictRevision;
     Name := "CONFLICT_REVISION";
     Desc := MDServerErrorConflictRevision_Error desc Expected Actual;
     Fields := [] |}.

Definition MDServerErrorConflictPrevRoot_Error `{Stringers} (desc : string)
  (Expected Actual : MdID) : string :=
  if String.eqb desc "" then
    String.concat ""
      ["Conflict: expected previous root "; MdID_String Expected;
       ", actual "; MdID_String Actual]
  else desc.

Definition MDServerErrorConflictPrevRoot_ToStatus `{Stringers} (desc : string)
  (Expected Actual : MdID) : Status :=
  {| Code := StatusCodeMDServerErrorConflictPrevRoot;
     Name := "CONFLICT_PREV_ROOT";
     Desc := MDServerErrorConflictPrevRoot_Error desc Expected Actual;
     Fields := [] |}.

Definition MDServerErrorConflictDiskUsage_Error (desc : string)
  (Expected Actual : Z) : string :=
  if String.eqb desc "" then
    String.concat ""
      ["Conflict: expected disk usage "; Sprintf_d Expected;
       ", actual "; Sprintf_d Actual]
  else desc.

Definition MDServerErrorConflictDiskUsage_ToStatus (desc : string)
  (Expected Actual : Z) : Status :=
  {| Code := StatusCodeMDServerErrorConflictDiskUsage;
     Name := "CONFLICT_DISK_USAGE";
     Desc := MDServerErrorConflictDiskUsage_Error desc Expected Actual;
     Fields := [] |}.

Definition MDServerErrorLocked_Error : string := "Locked".

Definition MDServerErrorLocked_ToStatus : Status :=
  {| Code := StatusCodeMDServerErrorLocked;
     Name := "LOCKED";
     Desc := MDServerErrorLocked_Error;
     Fields := [] |}.

Definition MDServerErrorUnauthorized_Error (Err : option errorString) : string :=
  match Err with
  | Some err => String.append "Unauthorized" (String.append ": " (errorString_Error err))
  | None => "Unauthorized"
  end.

Definition MDServerErrorUnauthorized_ToStatus (Err : option errorString) : Status :=
  {| Code := StatusCodeMDServerErrorUnauthorized;
     Name := "UNAUTHORIZED";
     Desc := MDServerErrorUnauthorized_Error Err;
     Fields := [] |}.

Definition MDServerErrorWriteAccess_Error : string := "WriteAccess".

Definition MDServerErrorWriteAccess_ToStatus : Status :=
  {| Code := StatusCodeMDServerErrorWriteAccess;
     Name := "WRITE_ACCESS";
     Desc := MDServerErrorWriteAccess_Error;
     Fields := [] |}.

(** [MDServerErrorThrottle.Error] and [MDServerErrorConditionFailed.Error]
    are both [e.Err.Error()]. *)
Definition MDServerErrorThrottle_Error (Err : option errorString) : option string :=
  Err_Error Err.

Definition MDServerErrorConditionFailed_Error (Err : option errorString)
  : option string :=
  Err_Error Err.

Definition MDServerErrorConflictFolderMapping_Error `{Stringers} (desc : string)
  (Expected Actual : TlfID) : string :=
  if String.eqb desc "" then
    String.concat ""
      ["Conflict: expected folder ID "; TlfID_String Expected;
       ", actual "; TlfID_String Actual]
  else desc.

Definition MDServerErrorConflictFolderMapping_ToStatus `{Stringers} (desc : string)
  (Expected Actual : TlfID) : Status :=
  {| Code := StatusCodeMDServerErrorConflictFolderMapping;
     Name := "CONFLICT_FOLDER_MAPPING";
     Desc := MDServerErrorConflictFolderMapping_Error desc Expected Actual;
     Fields := [] |}.

(** The interface calls [e.Error()] and [e.ToStatus()] on a typed MD-server
    error.  [None] is a nil dereference; it is also the answer for the three
    kinds of error values whose methods are not in this file. *)
Definition error_Error `{Stringers} (e : error) : option string :=
  match e with
  | MDServerError err => Some (MDServerError_Error err)
  | MDServerErrorBadRequest Reason => Some (MDServerErrorBadRequest_Error Reason)
  | MDServerErrorConflictRevision d x a =>
      Some (MDServerErrorConflictRevision_Error d x a)
  | MDServerErrorConflictPrevRoot d x a =>
      Some (MDServerErrorConflictPrevRoot_Error d x a)
  | MDServerErrorConflictDiskUsage d x a =>
      Some (MDServerErrorConflictDiskUsage_Error d x a)
  | MDServerErrorLocked => Some MDServerErrorLocked_Error
  | MDServerErrorUnauthorized err => Some (MDServerErrorUnauthorized_Error err)
  | MDServerErrorWriteAccess => Some MDServerErrorWriteAccess_Error
  | MDServerErrorThrottle err => MDServerErrorThrottle_Error err
  | MDServerErrorConditionFailed err => MDServerErrorConditionFailed_Error err
  | MDServerErrorConflictFolderMapping d x a =>
      Some (MDServerErrorConflictFolderMapping_Error d x a)
  | AppStatusError _ _ _ _ | contextCanceled | otherError _ => None
  end.

Definition error_ToStatus `{Stringers} (e : error) : option Status :=
  match e with
  | MDServerError err => Some (MDServerError_ToStatus err)
  | MDServerErrorBadRequest Reason => Some (MDServerErrorBadRequest_ToStatus Reason)
  | MDServerErrorConflictRevision d x a =>
      Some (MDServerErrorConflictRevision_ToStatus d x a)
  | MDServerErrorConflictPrevRoot d x a =>
      Some (MDServerErrorConflictPrevRoot_ToStatus d x a)
  | MDServerErrorConflictDiskUsage d x a =>
      Some (MDServerErrorConflictDiskUsage_ToStatus d x a)
  | MDServerErrorLocked => Some MDServerErrorLocked_ToStatus
  | MDServerErrorUnauthorized err => Some (MDServerErrorUnauthorized_ToStatus err)
  | MDServerErrorWriteAccess => Some MDServerErrorWriteAccess_ToStatus
  | MDServerErrorThrottle err => MDServerErrorThrottle_ToStatus err
  | MDServerErrorConditionFailed err => MDServerErrorConditionFailed_ToStatus err
  | MDServerErrorConflictFolderMapping d x a =>
      Some (MDServerErrorConflictFolderMapping_ToStatus d x a)
  | AppStatusError _ _ _ _ | contextCanceled | otherError _ => None
  end.

(** [MakeArg]: a pointer to a zero status. *)
Definition MakeArg : interface_arg := ArgStatus (Some (mkStatus 0 "" "" [])).

(** What a client sees of an error that the server exported: the status
    goes over the wire and through the unwrapper. *)
Definition overTheWire `{Stringers} (e : error) : option error :=
  s ← error_ToStatus e; fst (UnwrapError (ArgStatus (Some s))).

(** Stand-ins for the two [String] methods: the bytes themselves. *)
#[global] Instance exampleStringers : Stringers :=
  {| MdID_String id := id; TlfID_String id := id |}.

(** ** The conflict renamer

    [t.Format] with the layout [2006-01-02] belongs to the time package and
    is taken as given.  [fmt.Sprintf] with [%s] verbs on strings is
    concatenation. *)

Class DateFormat (Time : Type) := Format_date : Time -> string.

Definition ConflictRenameHelper {Time} `{DateFormat Time} (t : Time)
  (user device original : string) : string :=
  let device := if String.eqb device "" then "unknown" else device in
  let split := splitExtension original in
  let date := Format_date t in
  String.concat ""
    [fst split; ".conflicted ("; user; "'s "; device; " copy "; date; ")";
     snd split].

Definition KID := string.

Record writerInfo := mkWriterInfo {
  wi_name : string;
  wi_uid : UID;
  wi_kid : KID;
  wi_deviceName : string
}.

(** What [newWriterInfo] reads of the result of [LoadUserPlusKeys]. *)
Record UserInfo := mkUserInfo {
  ui_Name : string;
  ui_KIDNames : gmap KID string
}.

Class KeybaseService := LoadUserPlusKeys : context -> UID -> result UserInfo.

(** [ConflictRename], given the time the clock returns and the writer info
    the operation returns. *)
Definition ConflictRename {Time} `{DateFormat Time} (now : Time)
  (winfo : writerInfo) (original : string) : string :=
  ConflictRenameHelper now (wi_name winfo) (wi_deviceName winfo) original.

(** [newWriterInfo]: a key that has no entry in [KIDNames] reads as the
    empty device name; a failing service gives the zero writer info with
    the error. *)
Definition newWriterInfo `{KeybaseService} (ctx : context) (uid : UID) (kid : KID)
  : writerInfo * option error :=
  match LoadUserPlusKeys ctx uid with
  | Err err => (mkWriterInfo "" "" "" "", Some err)
  | Ok ui =>
      (mkWriterInfo (ui_Name ui) uid kid
         (match ui_KIDNames ui !! kid with Some n => n | None => "" end),
       None)
  end.

(** The bytes that stop or decide the scan of [splitExtension]. *)
Definition special (c : ascii) : bool :=
  (Ascii.eqb c "." || Ascii.eqb c "/" || Ascii.eqb c "\" || Ascii.eqb c " ")%bool.

(** A string none of whose bytes is a dot, a separator or a space. *)
Definition plain_string (s : string) : Prop :=
  Forall (fun c => special c = false) (list_ascii_of_string s).

(** A date format that prints digits and dashes, for running the model. *)
#[global] Instance exampleDateFormat : DateFormat nat :=
  fun day =>
    String.append "2016-07-"
      (if (day <? 10)%nat then String.append "0" (pretty day) else pretty day).

(** The body of the loop of [splitExtension] at a dot found at index [i]. *)
Definition dot_split (path : string) (i : nat) : string * string :=
  let i2 :=
    if ((4 <=? i)%nat && String.eqb (slice path (i - 4) i) ".tar")%bool
    then (i - 4)%nat else i in
  if ((i2 =? 0)%nat || is_sep (String.get (i2 - 1) path))%bool
  then (path, "")
  else (slice path 0 i2, slice path i2 (String.length path)).

(** A user with one named device, for running the model. *)
#[global] Instance exampleService : KeybaseService :=
  fun ctx uid =>
    Ok (mkUserInfo "alice" {[ "kid1" := "laptop" ]}).

(** ** Test helpers

    [FakeTlfID] and [fakeTlfIDByte].  The two suffix bytes are constants
    declared elsewhere and are taken as given.  An array literal with one
    element is that element followed by zero bytes; the last byte is then
    overwritten. *)

Class TlfIDSuffixes := {
  TlfIDSuffix : ascii;
  PubTlfIDSuffix : ascii
}.

Definition FakeTlfID `{TlfIDSuffixes} (b : ascii) (public : bool) : TlfID :=
  let bytes := b :: replicate (TlfIDByteLen - 1) zero_byte in
  let bytes :=
    if public then <[(TlfIDByteLen - 1)%nat := PubTlfIDSuffix]> bytes
    else <[(TlfIDByteLen - 1)%nat := TlfIDSuffix]> bytes in
  string_of_list_ascii bytes.

Definition fakeTlfIDByte (id : TlfID) : ascii :=
  match String.get 0 id with
  | Some c => c
  | None => zero_byte
  end.

(** The error of a [limitedCryptoSigner] that has no call left. *)
Definition noMoreSigns : error := otherError "No more Sign calls left".

(** A run of [Sign] calls on one signer, one call per message. *)
Fixpoint signAll {S} `{cryptoSigner S} (ctx : context) (msgs : list Bytes) (s : S)
  : list (result SignatureInfo) * S :=
  match msgs with
  | [] => ([], s)
  | m :: ms =>
      let r := Sign ctx m s in
      let rest := signAll ctx ms (snd r) in
      (fst r :: fst rest, snd rest)
  end.

(** A run of [Put] calls on the shim server, one call per revision. *)
Fixpoint putAll (ctx : context) (rs : list RootMetadataSigned) (s : shimMDServer)
  : list (option error) * shimMDServer :=
  match rs with
  | [] => ([], s)
  | r :: rs' =>
      let p := shimMDServer_Put ctx r s in
      let rest := putAll ctx rs' (snd p) in
      (fst p :: fst rest, snd rest)
  end.

(** * Properties *)

(** ** The error taxonomy *)

(** The code constants are the codes of the taxonomy. *)
Lemma taxonomy_codes :
  taxonomy =
  [ (ServerError, StatusCodeMDServerError);
    (BadRequest, StatusCodeMDServerErrorBadRequest);
    (ConflictRevision, StatusCodeMDServerErrorConflictRevision);
    (ConflictPrevRoot, StatusCodeMDServerErrorConflictPrevRoot);
    (ConflictDiskUsage, StatusCodeMDServerErrorConflictDiskUsage);
    (Locked, StatusCodeMDServerErrorLocked);
    (Unauthorized, StatusCodeMDServerErrorUnauthorized);
    (Throttle, StatusCodeMDServerErrorThrottle);
    (ConditionFailed, StatusCodeMDServerErrorConditionFailed);
    (WriteAccess, StatusCodeMDServerErrorWriteAccess);
    (ConflictFolderMapping, StatusCodeMDServerErrorConflictFolderMapping) ].
Proof. reflexivity. Qed.

(** C1 (the code departs from the claim): on an error built by
    [errors.New], whatever its message,
    [MDServerErrorConditionFailed.ToStatus] returns the code 2807 of
    [Throttle], not the code 2808 that the taxonomy and the constant
    [StatusCodeMDServerErrorConditionFailed] give to [ConditionFailed]; the
    throttle error has the same code, and the unwrapper reads the status
    back as a throttle error. *)
Theorem ConditionFailed_ToStatus_code (msg : string) :
  let e := Some (errors_New msg) in
  exists s,
    MDServerErrorConditionFailed_ToStatus e = Some s
    /\ Code s = 2807
    /\ Code s <> StatusCodeMDServerErrorConditionFailed
    /\ taxonomy_kind (Code s) = Some Throttle
    /\ Code <$> MDServerErrorThrottle_ToStatus e = Some (Code s)
    /\ UnwrapError (ArgStatus (Some s))
       = (Some (MDServerErrorThrottle e), None).
Proof.
  intros e. eexists. split; [reflexivity|].
  repeat split; vm_compute; congruence.
Qed.

Example ConditionFailed_ToStatus_example :
  MDServerErrorConditionFailed_ToStatus (Some (errors_New "write condition failed"))
  = Some (mkStatus 2807 "CONDITION_FAILED" "write condition failed" []).
Proof. reflexivity. Qed.

Ltac codes :=
  unfold StatusCodeMDServerError, StatusCodeMDServerErrorBadRequest,
    StatusCodeMDServerErrorConflictRevision,
    StatusCodeMDServerErrorConflictPrevRoot,
    StatusCodeMDServerErrorConflictDiskUsage, StatusCodeMDServerErrorLocked,
    StatusCodeMDServerErrorUnauthorized, StatusCodeMDServerErrorThrottle,
    StatusCodeMDServerErrorConditionFailed,
    StatusCodeMDServerErrorWriteAccess,
    StatusCodeMDServerErrorConflictFolderMapping in *.

(** C7: a status whose code is one of 2800..2810 unwraps to the typed error
    of the kind the taxonomy gives to that code, with no dispatch error. *)
Theorem UnwrapError_taxonomy (s : Status) :
  2800 <= Code s <= 2810 ->
  exists e k,
    UnwrapError (ArgStatus (Some s)) = (Some e, None)
    /\ taxonomy_kind (Code s) = Some k
    /\ kind_of e = Some k.
Proof.
  intros Hc. destruct s as [c n d f]; simpl in *.
  assert (Hcases : c = 2800 \/ c = 2801 \/ c = 2802 \/ c = 2803 \/ c = 2804
                   \/ c = 2805 \/ c = 2806 \/ c = 2807 \/ c = 2808
                   \/ c = 2809 \/ c = 2810) by lia.
  repeat (destruct Hcases as [-> | Hcases]); try subst c;
    eexists _, _; (split; [reflexivity | split; reflexivity]).
Qed.

Lemma UnwrapError_taxonomy_witness :
  exists e k,
    UnwrapError (ArgStatus (Some (mkStatus 2808 "CONDITION_FAILED" "d" [])))
    = (Some e, None)
    /\ taxonomy_kind 2808 = Some k /\ kind_of e = Some k.
Proof.
  apply (UnwrapError_taxonomy (mkStatus 2808 "CONDITION_FAILED" "d" [])).
  simpl. lia.
Defined.

Lemma taxonomy_kind_None (c : Z) :
  taxonomy_kind c = None -> c < 2800 \/ 2810 < c.
Proof.
  unfold taxonomy_kind, taxonomy. cbn [List.find snd].
  repeat match goal with
         | |- context [?a =? c] => destruct (Z.eqb_spec a c)
         end; cbn; try discriminate; intros _; lia.
Qed.

(** Outside the taxonomy the unwrapper builds the generic error with the
    map that the loop over the fields fills. *)
Lemma UnwrapError_default (s : Status) :
  Code s <> 0 -> taxonomy_kind (Code s) = None ->
  UnwrapError (ArgStatus (Some s))
  = (Some (AppStatusError (Code s) (Name s) (Desc s) (collect_fields (Fields s))),
     None).
Proof.
  intros H0 Hk. apply taxonomy_kind_None in Hk.
  unfold UnwrapError. codes.
  repeat match goal with
         | |- context [Code s =? ?a] =>
             destruct (Z.eqb_spec (Code s) a); [lia|]
         end.
  reflexivity.
Qed.

Lemma collect_fields_snoc (fs : list StringKVPair) (f : StringKVPair) :
  collect_fields (fs ++ [f]) = <[Key f := Value f]> (collect_fields fs).
Proof. unfold collect_fields. rewrite foldl_app. reflexivity. Qed.

Lemma foldl_insert_other (fs : list StringKVPair) (m : gmap string string) (k : string) :
  (forall g, g ∈ fs -> Key g <> k) ->
  foldl (fun (m : gmap string string) f => <[Key f := Value f]> m) m fs !! k = m !! k.
Proof.
  revert m. induction fs as [|g fs IH]; intros m Hk; simpl; [reflexivity|].
  rewrite IH.
  - apply lookup_insert_ne. apply Hk. left.
  - intros g' Hg'. apply Hk. right. exact Hg'.
Qed.

Lemma foldl_insert_origin (fs : list StringKVPair) (m : gmap string string)
  (k v : string) :
  foldl (fun (m : gmap string string) f => <[Key f := Value f]> m) m fs !! k = Some v ->
  m !! k = Some v \/ exists f, f ∈ fs /\ Key f = k /\ Value f = v.
Proof.
  revert m. induction fs as [|g fs IH]; intros m H; simpl in H; [left; exact H|].
  apply IH in H as [H | (f & Hf & Hkey & Hval)].
  - destruct (decide (Key g = k)) as [<- | Hne].
    + rewrite lookup_insert_eq in H. right. exists g. split; [left|].
      split; [reflexivity | congruence].
    + rewrite lookup_insert_ne in H by exact Hne. left. exact H.
  - right. exists f. split; [right; exact Hf | split; assumption].
Qed.

(** A field is carried when no later field has its key. *)
Lemma collect_fields_last (fs1 fs2 : list StringKVPair) (f : StringKVPair) :
  (forall g, g ∈ fs2 -> Key g <> Key f) ->
  collect_fields (fs1 ++ f :: fs2) !! Key f = Some (Value f).
Proof.
  intros H. unfold collect_fields. rewrite foldl_app. simpl.
  rewrite foldl_insert_other by exact H. apply lookup_insert_eq.
Qed.

Lemma collect_fields_origin (fs : list StringKVPair) (k v : string) :
  collect_fields fs !! k = Some v ->
  exists f, f ∈ fs /\ Key f = k /\ Value f = v.
Proof.
  intros H. apply foldl_insert_origin in H as [H | H]; [|exact H].
  rewrite lookup_empty in H. discriminate.
Qed.

Lemma collect_fields_present (fs : list StringKVPair) (f : StringKVPair) :
  f ∈ fs -> is_Some (collect_fields fs !! Key f).
Proof.
  induction fs as [|x l IH] using rev_ind; intros Hin.
  - inversion Hin.
  - rewrite collect_fields_snoc.
    destruct (decide (Key x = Key f)) as [Heq | Hne].
    + rewrite Heq, lookup_insert_eq. eauto.
    + rewrite lookup_insert_ne by exact Hne. apply IH.
      apply elem_of_app in Hin as [Hin | Hin]; [exact Hin|].
      apply list_elem_of_singleton in Hin. congruence.
Qed.

Lemma collect_fields_NoDup (fs : list StringKVPair) (f : StringKVPair) :
  NoDup (Key <$> fs) -> f ∈ fs -> collect_fields fs !! Key f = Some (Value f).
Proof.
  intros Hnd Hin.
  apply list_elem_of_split in Hin as (fs1 & fs2 & ->).
  apply collect_fields_last. intros g Hg Heq.
  rewrite fmap_app, fmap_cons in Hnd.
  apply NoDup_app in Hnd as (_ & _ & Hnd).
  apply NoDup_cons in Hnd as [Hnotin _].
  apply Hnotin. rewrite <- Heq. apply list_elem_of_fmap_2. exact Hg.
Qed.

(** C8, as stated, fails: a record whose fields repeat a key unwraps to a
    generic error whose map holds one value for that key, so the first of
    the two fields is not carried. *)
Lemma UnwrapError_generic_repeated_key :
  Code repeatedKeyStatus <> 0
  /\ taxonomy_kind (Code repeatedKeyStatus) = None
  /\ ~ (exists m,
          UnwrapError (ArgStatus (Some repeatedKeyStatus))
          = (Some (AppStatusError (Code repeatedKeyStatus)
                     (Name repeatedKeyStatus) (Desc repeatedKeyStatus) m), None)
          /\ forall f, f ∈ Fields repeatedKeyStatus ->
                       m !! Key f = Some (Value f)).
Proof.
  split; [discriminate|]. split; [reflexivity|].
  intros (m & Hu & Hall).
  rewrite UnwrapError_default in Hu by (discriminate || reflexivity).
  injection Hu as <-.
  assert (collect_fields (Fields repeatedKeyStatus) !! "k" = Some "b") as Hb.
  { apply (collect_fields_last [mkStringKVPair "k" "a"] []
             (mkStringKVPair "k" "b")).
    intros g Hg. inversion Hg. }
  assert (collect_fields (Fields repeatedKeyStatus) !! "k" = Some "a") as Ha.
  { apply (Hall (mkStringKVPair "k" "a")). left. }
  rewrite Hb in Ha. discriminate Ha.
Qed.

(** C8 (amended): a status whose code is not zero and not in the taxonomy
    unwraps to the generic application-status error with the record's code,
    name and description and a map of its fields: every key of the record
    is in the map; a field is carried with its value when no later field
    has the same key, so all fields are carried when no key repeats; and the
    map holds nothing that is not a field of the record. *)
Theorem UnwrapError_generic (s : Status) :
  Code s <> 0 -> taxonomy_kind (Code s) = None ->
  exists m : gmap string string,
    UnwrapError (ArgStatus (Some s))
    = (Some (AppStatusError (Code s) (Name s) (Desc s) m), None)
    /\ (forall f, f ∈ Fields s -> is_Some (m !! Key f))
    /\ (forall fs1 f fs2, Fields s = (fs1 ++ f :: fs2)%list ->
          (forall g, g ∈ fs2 -> Key g <> Key f) ->
          m !! Key f = Some (Value f))
    /\ (NoDup (Key <$> Fields s) ->
          forall f, f ∈ Fields s -> m !! Key f = Some (Value f))
    /\ (forall k v, m !! k = Some v ->
          exists f, f ∈ Fields s /\ Key f = k /\ Value f = v).
Proof.
  intros H0 Hk. exists (collect_fields (Fields s)).
  split; [apply UnwrapError_default; assumption|].
  split; [intros f; apply collect_fields_present|].
  split; [intros fs1 f fs2 -> Hlater; apply collect_fields_last; exact Hlater|].
  split; [intros Hnd f; apply collect_fields_NoDup; exact Hnd|].
  intros k v. apply collect_fields_origin.
Qed.

Lemma UnwrapError_generic_witness :
  exists m : gmap string string,
    UnwrapError (ArgStatus (Some repeatedKeyStatus))
    = (Some (AppStatusError 1 "GENERIC" "d" m), None)
    /\ m !! "k" = Some "b".
Proof.
  destruct (UnwrapError_generic repeatedKeyStatus) as (m & Hu & _ & Hlast & _).
  - simpl. lia.
  - reflexivity.
  - exists m. split; [exact Hu|].
    apply (Hlast [mkStringKVPair "k" "a"] (mkStringKVPair "k" "b") []).
    + reflexivity.
    + intros g Hg. inversion Hg.
Defined.

(** C10: a nil status pointer and a status with code 0 unwrap to no error
    at all, and a dispatch error comes back exactly when the argument is not
    a status pointer. *)
Theorem UnwrapError_nil_or_zero :
  UnwrapError (ArgStatus None) = (None, None)
  /\ (forall s, Code s = 0 -> UnwrapError (ArgStatus (Some s)) = (None, None))
  /\ (forall arg, snd (UnwrapError arg) <> None <-> arg = ArgOther).
Proof.
  split; [reflexivity|]. split.
  - intros s Hs. unfold UnwrapError. rewrite Hs. reflexivity.
  - intros arg. split.
    + destruct arg as [[s|]|]; [| |reflexivity].
      * unfold UnwrapError. destruct (Code s =? 0); intros H; exfalso; apply H; reflexivity.
      * intros H; exfalso; apply H; reflexivity.
    + intros ->. discriminate.
Qed.

Lemma UnwrapError_nil_or_zero_witness :
  UnwrapError (ArgStatus (Some (mkStatus 0 "OK" "" []))) = (None, None).
Proof.
  apply (proj1 (proj2 UnwrapError_nil_or_zero) (mkStatus 0 "OK" "" [])).
  reflexivity.
Defined.

(** ** splitExtension *)

Lemma append_cons (c : ascii) (a b : string) :
  String.append (String c a) b = String c (String.append a b).
Proof. reflexivity. Qed.

Lemma append_empty_l (s : string) : String.append "" s = s.
Proof. reflexivity. Qed.

Lemma append_empty_r (s : string) : String.append s "" = s.
Proof.
  induction s as [|c s IH]; [reflexivity|].
  rewrite append_cons, IH. reflexivity.
Qed.

Lemma substring_whole (s : string) : substring 0 (String.length s) s = s.
Proof. induction s as [|c s IH]; simpl; [reflexivity | f_equal; exact IH]. Qed.

Lemma substring_split (s : string) (i : nat) :
  String.append (substring 0 i s) (substring i (String.length s - i) s) = s.
Proof.
  revert i. induction s as [|c s IH]; intros [|i]; try reflexivity.
  - cbn [substring String.length Nat.sub]. rewrite append_empty_l.
    f_equal. apply substring_whole.
  - cbn [substring String.length Nat.sub]. rewrite append_cons.
    f_equal. apply IH.
Qed.

Lemma slice_split (path : string) (i : nat) :
  String.append (slice path 0 i) (slice path i (String.length path)) = path.
Proof. unfold slice. rewrite Nat.sub_0_r. apply substring_split. Qed.

Lemma splitExtension_loop_concat (path : string) (i : nat) :
  String.append (fst (splitExtension_loop path i))
                (snd (splitExtension_loop path i)) = path.
Proof.
  induction i as [|i IH]; [apply append_empty_r|].
  cbn [splitExtension_loop].
  destruct (String.get (S i) path) as [c|]; [|exact IH].
  destruct (Ascii.eqb c ".").
  - match goal with
    | |- context [if ?b then (path, ""%string) else _] => destruct b
    end; [apply append_empty_r | apply slice_split].
  - match goal with
    | |- context [if ?b then (path, ""%string) else _] => destruct b
    end; [apply append_empty_r | exact IH].
Qed.

(** C9: the base name and the extension that [splitExtension] returns
    concatenate back to the path, for every path. *)
Theorem splitExtension_concat (path : string) :
  String.append (fst (splitExtension path)) (snd (splitExtension path)) = path.
Proof. apply splitExtension_loop_concat. Qed.

Example splitExtension_tar_gz :
  splitExtension "dir/a.tar.gz" = ("dir/a", ".tar.gz").
Proof. reflexivity. Qed.

Example splitExtension_dotfile :
  splitExtension "dir/.bashrc" = ("dir/.bashrc", "").
Proof. reflexivity. Qed.

Example splitExtension_plain :
  splitExtension "photo.jpg" = ("photo", ".jpg").
Proof. reflexivity. Qed.

(** ** The journal *)

Section JournalProperties.
Context {Signer Server : Type}.
Context {signerOps : cryptoSigner Signer} {serverOps : MDServer Server}.
Context {codec : Codec} {crypto : CryptoCommon}.

Local Abbreviation W := (world Signer Server).

(** *** Reasoning about operations *)

Lemma bind_Ok_inv {A B} (m : M W A) (k : A -> M W B) (w w' : W) (b : B) :
  bind m k w = (Ok b, w') ->
  exists a w1, m w = (Ok a, w1) /\ k a w1 = (Ok b, w').
Proof.
  unfold bind. destruct (m w) as [[a|e] w1]; intros H.
  - exists a, w1. split; [reflexivity | exact H].
  - discriminate H.
Qed.

Lemma bind_Err_inv {A B} (m : M W A) (k : A -> M W B) (w w' : W) (e : error) :
  bind m k w = (Err e, w') ->
  m w = (Err e, w')
  \/ exists a w1, m w = (Ok a, w1) /\ k a w1 = (Err e, w').
Proof.
  unfold bind. destruct (m w) as [[a|e0] w1]; intros H.
  - right. exists a, w1. split; [reflexivity | exact H].
  - left. injection H as -> ->. reflexivity.
Qed.

Lemma keeps_journal_ret {A} (a : A) : keeps_journal (ret a : M W A).
Proof. intros w r w' H. injection H as _ <-. reflexivity. Qed.

Lemma keeps_journal_bind {A B} (m : M W A) (k : A -> M W B) :
  keeps_journal m -> (forall a, keeps_journal (k a)) -> keeps_journal (bind m k).
Proof.
  intros Hm Hk w r w' H. unfold bind in H.
  destruct (m w) as [[a|e] w1] eqn:Em.
  - rewrite (Hk a w1 r w' H). exact (Hm w _ w1 Em).
  - injection H as _ <-. exact (Hm w _ w1 Em).
Qed.

Lemma keeps_journal_signMD (ctx : context) (md : BareRootMetadata) :
  keeps_journal (signMD ctx md : M W _).
Proof. intros w r w' Hs. injection Hs as _ <-. reflexivity. Qed.

Lemma keeps_journal_MakeRandomBranchID :
  keeps_journal (MakeRandomBranchID : M W _).
Proof.
  intros w r w'. unfold MakeRandomBranchID.
  destruct (drawBranchID (entropy w)) as [[b src']|]; intros Hd;
    injection Hd as _ <-; reflexivity.
Qed.

Lemma keeps_journal_convertEntries (ctx : context) (bid : BranchID)
  (es : list ImmutableBareRootMetadata) :
  forall prev temp,
    keeps_journal (convertEntries ctx bid prev temp es : M W _).
Proof.
  induction es as [|e es IH]; intros prev temp; cbn [convertEntries].
  - apply keeps_journal_ret.
  - apply keeps_journal_bind; [apply keeps_journal_signMD|].
    intros signed. apply IH.
Qed.

(** C3: when [convertToBranch] fails, at whatever step, the journal is the
    one it started with: same entries, same branch id. *)
Theorem convertToBranch_atomic (ctx : context) (w w' : W) (e : error) :
  convertToBranch ctx w = (Err e, w') -> journal w' = journal w.
Proof.
  unfold convertToBranch. intros H.
  apply bind_Err_inv in H as [H0 | (j & w1 & Hj & H1)]; [discriminate H0|].
  injection Hj as <- <-.
  destruct (decide (branchID (journal w) = NullBranchID)) as [Hnull|Hbranch].
  - apply bind_Err_inv in H1 as [H1 | (bid & w2 & Hbid & H2)].
    { exact (keeps_journal_MakeRandomBranchID _ _ _ H1). }
    rewrite <- (keeps_journal_MakeRandomBranchID _ _ _ Hbid).
    apply bind_Err_inv in H2 as [H2 | (temp & w3 & _ & H3)].
    { exact (keeps_journal_convertEntries _ _ _ _ _ _ _ _ H2). }
    discriminate H3.
  - injection H1 as _ <-. reflexivity.
Qed.

(** *** Conversion to a branch *)

Lemma drawBranchID_nonnull (src rest : list BranchID) (b : BranchID) :
  drawBranchID src = Some (b, rest) -> b <> NullBranchID.
Proof.
  induction src as [|c src IH]; cbn [drawBranchID]; [discriminate|].
  destruct (decide (c = NullBranchID)) as [_|Hc]; [exact IH|].
  intros Hd. injection Hd as <- _. exact Hc.
Qed.

Lemma CheckValidSuccessor_None (this next : BareRootMetadata) (prevID : MdID) :
  CheckValidSuccessor this prevID next = None <->
  Revision next = Revision this + 1 /\ PrevRoot next = prevID
  /\ BID next = BID this /\ MergedStatus next = MergedStatus this.
Proof.
  unfold CheckValidSuccessor.
  destruct (Z.eqb_spec (Revision next) (Revision this + 1)); cbn [negb];
    [|split; [discriminate | intros (? & _); contradiction]].
  case_bool_decide; cbn [negb];
    [|split; [discriminate | intros (_ & ? & _); contradiction]].
  case_bool_decide; cbn [negb];
    [|split; [discriminate | intros (_ & _ & ? & _); contradiction]].
  case_bool_decide; cbn [negb];
    [|split; [discriminate | intros (_ & _ & _ & ?); contradiction]].
  split; [intros _; repeat split; assumption | reflexivity].
Qed.

Lemma signRMDS_Ok (ctx : context) (md : BareRootMetadata) (s s' : Signer)
  (r : RootMetadataSigned) :
  signRMDS ctx md s = (Ok r, s') ->
  exists wsig, MD r = SetWriterMetadataSigInfo wsig md.
Proof.
  unfold signRMDS.
  destruct (Sign ctx (GetSerializedWriterMetadata md) s) as [[wsig|e1] s1];
    [|discriminate].
  destruct (Sign ctx (Encode (SetWriterMetadataSigInfo wsig md)) s1)
    as [[rsig|e2] s2]; [|discriminate].
  intros Hs. injection Hs as <- _. exists wsig. reflexivity.
Qed.

Lemma signMD_Ok (ctx : context) (md : BareRootMetadata) (w w' : W)
  (r : RootMetadataSigned) :
  signMD ctx md w = (Ok r, w') ->
  exists wsig, MD r = SetWriterMetadataSigInfo wsig md.
Proof.
  unfold signMD. intros Hs.
  destruct (signRMDS ctx md (signer w)) as [res s'] eqn:Es.
  cbn [fst snd] in Hs. injection Hs as -> _.
  exact (signRMDS_Ok _ _ _ _ _ Es).
Qed.

Lemma convertEntries_Ok (ctx : context) (bid : BranchID)
  (es : list ImmutableBareRootMetadata) :
  forall prev temp (w w' : W) out,
    convertEntries ctx bid prev temp es w = (Ok out, w') ->
    exists new, out = (temp ++ new)%list /\ converted bid prev es new.
Proof.
  induction es as [|e es IH]; intros prev temp w w' out Hc;
    cbn [convertEntries] in Hc.
  - injection Hc as <- _. exists []. split; [symmetry; apply app_nil_r | exact I].
  - apply bind_Ok_inv in Hc as (signed & w1 & Hs & Hc).
    apply signMD_Ok in Hs as (wsig & Hmd).
    apply IH in Hc as (new & -> & Hnew).
    exists (mkImmutableBareRootMetadata signed (MakeMdID (MD signed)) :: new).
    split; [unfold log_append; rewrite <- app_assoc; reflexivity|].
    cbn [converted rmds mdID].
    repeat split; try exact Hnew; rewrite Hmd; destruct prev; reflexivity.
Qed.

Lemma converted_length (bid : BranchID) (es : list ImmutableBareRootMetadata) :
  forall prev new, converted bid prev es new -> length new = length es.
Proof.
  induction es as [|e es IH]; intros prev [|n new] Hc; try contradiction;
    [reflexivity|].
  destruct Hc as (_ & _ & _ & _ & _ & Hc). cbn [length]. f_equal. exact (IH _ _ Hc).
Qed.

Lemma converted_all_on_branch (bid : BranchID)
  (es : list ImmutableBareRootMetadata) :
  forall prev new, converted bid prev es new -> all_on_branch bid new.
Proof.
  induction es as [|e es IH]; intros prev [|n new] Hc; try contradiction;
    [constructor|].
  destruct Hc as (Hb & Hm & _ & _ & _ & Hc).
  constructor; [split; assumption | exact (IH _ _ Hc)].
Qed.

Lemma converted_revisions (bid : BranchID) (es : list ImmutableBareRootMetadata) :
  forall prev new, converted bid prev es new -> revisions new = revisions es.
Proof.
  induction es as [|e es IH]; intros prev [|n new] Hc; try contradiction;
    [reflexivity|].
  destruct Hc as (_ & _ & Hr & _ & _ & Hc).
  unfold revisions. rewrite !fmap_cons. f_equal; [exact Hr | exact (IH _ _ Hc)].
Qed.

Lemma converted_chain_valid (bid : BranchID) (es : list ImmutableBareRootMetadata) :
  forall prev new,
    chain_valid es -> converted bid prev es new -> chain_valid new.
Proof.
  induction es as [|e1 es IH]; intros prev [|n1 new] Hv Hc; try contradiction;
    [exact I|].
  destruct Hc as (Hb1 & Hm1 & Hr1 & _ & _ & Hc).
  destruct es as [|e2 es]; destruct new as [|n2 new]; try contradiction;
    [exact I|].
  destruct Hv as [Hsucc Hv].
  split; [|exact (IH _ _ Hv Hc)].
  destruct Hc as (Hb2 & Hm2 & Hr2 & Hp2 & _ & _).
  apply CheckValidSuccessor_None in Hsucc as (Hrev & _).
  apply CheckValidSuccessor_None.
  repeat split; congruence.
Qed.

(** C4: after a successful [convertToBranch] every entry carries the branch
    id that was just generated, which is not the null id and is the
    journal's branch id from then on, and is unmerged; the journal has as
    many entries as before, with the same revision numbers; and if adjacent
    entries passed [CheckValidSuccessor] before they still do.  (The call
    succeeds on merged journals only.) *)
Theorem convertToBranch_converts (ctx : context) (w w' : W) :
  chain_valid (log (journal w)) ->
  convertToBranch ctx w = (Ok tt, w') ->
  exists bid rest,
    drawBranchID (entropy w) = Some (bid, rest)
    /\ bid <> NullBranchID
    /\ branchID (journal w) = NullBranchID
    /\ branchID (journal w') = bid
    /\ all_on_branch bid (log (journal w'))
    /\ journal_length (journal w') = journal_length (journal w)
    /\ revisions (log (journal w')) = revisions (log (journal w))
    /\ chain_valid (log (journal w')).
Proof.
  intros Hv Hc. unfold convertToBranch in Hc.
  apply bind_Ok_inv in Hc as (j & w1 & Hj & Hc). injection Hj as <- <-.
  destruct (decide (branchID (journal w) = NullBranchID)) as [Hnull|Hbranch];
    [|discriminate Hc].
  apply bind_Ok_inv in Hc as (bid & w2 & Hbid & Hc).
  apply bind_Ok_inv in Hc as (temp & w3 & Htemp & Hc).
  apply convertEntries_Ok in Htemp as (new & -> & Hnew).
  injection Hc as <-. cbn [journal log branchID app].
  unfold MakeRandomBranchID in Hbid.
  destruct (drawBranchID (entropy w)) as [[b rest]|] eqn:Hdraw;
    [|discriminate Hbid].
  injection Hbid as -> _.
  exists bid, rest. split; [reflexivity|].
  split; [exact (drawBranchID_nonnull _ _ _ Hdraw)|].
  split; [exact Hnull|]. split; [reflexivity|].
  split; [exact (converted_all_on_branch _ _ _ _ Hnew)|].
  split; [exact (converted_length _ _ _ _ Hnew)|].
  split; [exact (converted_revisions _ _ _ _ Hnew)|].
  exact (converted_chain_valid _ _ _ _ Hv Hnew).
Qed.

(** *** clear *)

(** C5: [clear] of the null branch id fails; of a non-null id that is not
    the journal's it succeeds and changes nothing; of the journal's non-null
    id it empties the log and resets the branch id to null; and a [clear]
    that succeeded, repeated with the same id, succeeds and changes
    nothing. *)
Theorem clear_cases (ctx : context) (bid : BranchID) (w : W) :
  (bid = NullBranchID -> exists e, clear ctx bid w = (Err e, w))
  /\ (bid <> NullBranchID -> bid <> branchID (journal w) ->
      clear ctx bid w = (Ok tt, w))
  /\ (bid <> NullBranchID -> bid = branchID (journal w) ->
      exists w',
        clear ctx bid w = (Ok tt, w')
        /\ journal w' = mkMDJournal [] NullBranchID
        /\ journal_length (journal w') = 0%nat
        /\ signer w' = signer w /\ entropy w' = entropy w
        /\ mdserver w' = mdserver w)
  /\ (forall w', clear ctx bid w = (Ok tt, w') ->
      clear ctx bid w' = (Ok tt, w')).
Proof.
  unfold clear.
  destruct (decide (bid = NullBranchID)) as [Hnull|Hnonnull].
  - split; [intros _; eexists; reflexivity|].
    split; [intros Hn; contradiction|].
    split; [intros Hn; contradiction|].
    intros w' Hc. discriminate Hc.
  - split; [intros Hn; contradiction|].
    split.
    { intros _ Hother. unfold bind, getJournal.
      destruct (decide (bid = branchID (journal w))); [contradiction | reflexivity]. }
    split.
    { intros _ Hsame. unfold bind, getJournal.
      destruct (decide (bid = branchID (journal w))); [|contradiction].
      eexists. split; [reflexivity|]. cbn. repeat split. }
    intros w' Hc. unfold bind, getJournal in *.
    destruct (decide (bid = branchID (journal w))) as [Hsame|Hother].
    + injection Hc as <-. cbn [journal branchID].
      destruct (decide (bid = NullBranchID)); [contradiction | reflexivity].
    + injection Hc as <-.
      destruct (decide (bid = branchID (journal w))); [contradiction | reflexivity].
Qed.

(** *** flushOne *)

(** The empty journal and the row of an accepted put: on an empty journal
    [flushOne] returns false, with no error and with the world, the server in
    it, untouched; when the server accepts the put of the earliest entry,
    [flushOne] returns true and the journal is left with the other entries,
    one entry shorter, on the same branch.  These are two of the ways the
    modelled [flushOne] returns; on the conflict that forks a merged journal
    it returns true and keeps the entry ([flushOne_conflict_forks] below),
    where the journal tests show the implementation removing it in the same
    call.  What every call that returns true does to the journal is
    therefore left open here. *)
Theorem flushOne_basic (ctx : context) (w : W) :
  (log (journal w) = [] -> flushOne ctx w = (Ok false, w))
  /\ (forall e rest srv,
        log (journal w) = e :: rest ->
        Put ctx (rmds e) (mdserver w) = (None, srv) ->
        exists w',
          flushOne ctx w = (Ok true, w')
          /\ log (journal w') = rest
          /\ S (journal_length (journal w')) = journal_length (journal w)
          /\ branchID (journal w') = branchID (journal w)
          /\ mdserver w' = srv).
Proof.
  split.
  - intros Hempty. unfold flushOne, bind, getJournal. rewrite Hempty. reflexivity.
  - intros e rest srv Hlog Hput.
    unfold flushOne, bind, getJournal. rewrite Hlog.
    unfold callPut. rewrite Hput. cbn [fst snd].
    unfold removeEarliest, bind, getJournal, setJournal, ret.
    cbn [journal log branchID]. rewrite Hlog.
    eexists. split; [reflexivity|].
    unfold journal_length. cbn [journal log branchID mdserver log_removeEarliest tail].
    rewrite Hlog. repeat split.
Qed.

(** C2: when the put of the earliest entry meets a revision conflict and
    the range that [GetRange] returns for the entry's revision ends with a
    revision of the same MdID, the entry was flushed before: [flushOne]
    returns true and removes it, and the journal stays on its branch. *)
Theorem flushOne_double_flush (ctx : context) (w : W)
  (e : ImmutableBareRootMetadata) (rest : list ImmutableBareRootMetadata)
  (err : error) (srv1 srv2 : Server) (rs : list RootMetadataSigned)
  (r : RootMetadataSigned) :
  log (journal w) = e :: rest ->
  Put ctx (rmds e) (mdserver w) = (Some err, srv1) ->
  isRevisionConflict err = true ->
  GetRange ctx (ID (MD (rmds e))) (BID (MD (rmds e)))
    (MergedStatus (MD (rmds e))) (Revision (MD (rmds e)))
    (Revision (MD (rmds e))) srv1 = (Ok rs, srv2) ->
  last rs = Some r ->
  MakeMdID (MD r) = mdID e ->
  flushOne ctx w
  = (Ok true,
     mkWorld (signer w) (entropy w) srv2
       (mkMDJournal rest (branchID (journal w)))).
Proof.
  intros Hlog Hput Hconflict Hrange Hlast Hsame.
  unfold flushOne, bind, getJournal. rewrite Hlog.
  unfold callPut. rewrite Hput. cbn [fst snd]. rewrite Hconflict.
  unfold callGetRange. cbn [mdserver]. rewrite Hrange. cbn [fst snd].
  unfold tailEquals. rewrite Hlast.
  rewrite bool_decide_eq_true_2 by exact Hsame.
  unfold removeEarliest, bind, getJournal, setJournal, ret.
  cbn [journal log branchID]. rewrite Hlog. reflexivity.
Qed.

End JournalProperties.

(** *** The operations on example worlds *)

(** Three entries need six signatures: with five the conversion fails. *)
Example convertToBranch_limited_fails :
  fst (convertToBranch Background limitedWorld)
  = Err (otherError "No more Sign calls left").
Proof. vm_compute. reflexivity. Qed.

Lemma convertToBranch_atomic_witness :
  journal (snd (convertToBranch Background limitedWorld)) = journal limitedWorld.
Proof.
  apply (convertToBranch_atomic Background limitedWorld
           (snd (convertToBranch Background limitedWorld))
           (otherError "No more Sign calls left")).
  vm_compute. reflexivity.
Defined.

Lemma exampleJournal_chain_valid : chain_valid (log exampleJournal).
Proof. vm_compute. repeat split. Qed.

Lemma convertToBranch_converts_witness :
  exists bid rest,
    drawBranchID (entropy exampleWorld) = Some (bid, rest)
    /\ bid <> NullBranchID
    /\ branchID (journal exampleWorld) = NullBranchID
    /\ branchID (journal branchWorld) = bid
    /\ all_on_branch bid (log (journal branchWorld))
    /\ journal_length (journal branchWorld) = journal_length (journal exampleWorld)
    /\ revisions (log (journal branchWorld)) = revisions (log (journal exampleWorld))
    /\ chain_valid (log (journal branchWorld)).
Proof.
  apply (convertToBranch_converts Background exampleWorld branchWorld).
  - exact exampleJournal_chain_valid.
  - vm_compute. reflexivity.
Defined.

Example branchWorld_journal :
  branchID (journal branchWorld) = FakeBranchID "b"
  /\ journal_length (journal branchWorld) = 3%nat
  /\ revisions (log (journal branchWorld)) = [10; 11; 12].
Proof. vm_compute. repeat split. Qed.

Lemma clear_cases_witness :
  (exists e, clear Background NullBranchID branchWorld = (Err e, branchWorld))
  /\ clear Background (FakeBranchID "c") branchWorld = (Ok tt, branchWorld)
  /\ (exists w',
        clear Background (FakeBranchID "b") branchWorld = (Ok tt, w')
        /\ journal w' = mkMDJournal [] NullBranchID
        /\ clear Background (FakeBranchID "b") w' = (Ok tt, w')).
Proof.
  split; [|split].
  - apply (proj1 (clear_cases Background NullBranchID branchWorld)).
    reflexivity.
  - apply (proj1 (proj2 (clear_cases Background (FakeBranchID "c") branchWorld)));
      vm_compute; congruence.
  - destruct (proj1 (proj2 (proj2
        (clear_cases Background (FakeBranchID "b") branchWorld))))
      as (w' & Hc & Hj & _).
    + vm_compute. congruence.
    + vm_compute. reflexivity.
    + exists w'. split; [exact Hc|]. split; [exact Hj|].
      apply (proj2 (proj2 (proj2
        (clear_cases Background (FakeBranchID "b") branchWorld)))).
      exact Hc.
Defined.

Lemma flushOne_basic_witness :
  flushOne Background
    (mkWorld exampleSigner [] emptyShim (mkMDJournal [] NullBranchID))
  = (Ok false, mkWorld exampleSigner [] emptyShim (mkMDJournal [] NullBranchID))
  /\ exists w',
       flushOne Background exampleWorld = (Ok true, w')
       /\ log (journal w') = exampleChain 2 11 (mdID (exampleEntry 10 "r1"))
       /\ S (journal_length (journal w')) = journal_length (journal exampleWorld)
       /\ branchID (journal w') = branchID (journal exampleWorld)
       /\ mdserver w' = mkShimMDServer [rmds (exampleEntry 10 "r1")] [] None.
Proof.
  split.
  - apply (proj1 (flushOne_basic Background _)). reflexivity.
  - apply (proj2 (flushOne_basic Background exampleWorld)
             (exampleEntry 10 "r1")
             (exampleChain 2 11 (mdID (exampleEntry 10 "r1")))
             (mkShimMDServer [rmds (exampleEntry 10 "r1")] [] None));
      reflexivity.
Defined.

(** A conflict on a merged journal whose entry is not on the server: the
    journal is converted, true is returned and the entry is kept. *)
Example flushOne_conflict_forks :
  let w := mkWorld exampleSigner [FakeBranchID "b"]
             (mkShimMDServer [] [] (Some (MDServerErrorConflictRevision "" 0 0)))
             exampleJournal in
  fst (flushOne Background w) = Ok true
  /\ journal_length (journal (snd (flushOne Background w))) = 3%nat
  /\ branchID (journal (snd (flushOne Background w))) = FakeBranchID "b"
  /\ rmdses (mdserver (snd (flushOne Background w))) = [].
Proof. vm_compute. repeat split. Qed.

(** The double-flush test: the flush under a cancelled context puts the
    entry on the server and returns the cancellation, keeping the entry. *)
Example flushOne_cancelled :
  flushOne (WithCancel_cancelled Background) singleEntryWorld
  = (Err contextCanceled,
     mkWorld exampleSigner [FakeBranchID "b"]
       (mkShimMDServer [rmds singleEntry] [] None)
       (mkMDJournal [singleEntry] NullBranchID)).
Proof. vm_compute. reflexivity. Qed.

Lemma flushOne_double_flush_witness :
  flushOne Background afterCancelledFlush
  = (Ok true,
     mkWorld exampleSigner [FakeBranchID "b"]
       (mkShimMDServer [rmds singleEntry] [] None)
       (mkMDJournal [] NullBranchID)).
Proof.
  apply (flushOne_double_flush Background afterCancelledFlush singleEntry []
           (MDServerErrorConflictRevision "" 0 0)
           (mkShimMDServer [rmds singleEntry] [rmds singleEntry] None)
           (mkShimMDServer [rmds singleEntry] [] None)
           [rmds singleEntry] (rmds singleEntry));
    reflexivity.
Defined.

(** * Further properties of the code *)

(** ** Exported errors and the unwrapper *)

Lemma append_nonempty (c : ascii) (s t : string) :
  String.eqb (String.append (String c s) t) "" = false.
Proof. rewrite append_cons. reflexivity. Qed.

Lemma length_append (a b : string) :
  String.length (String.append a b) = (String.length a + String.length b)%nat.
Proof.
  induction a as [|c a IH]; [reflexivity|].
  rewrite append_cons. cbn [String.length Nat.add]. f_equal. exact IH.
Qed.

Lemma eqb_empty_false (s : string) : s <> "" -> String.eqb s "" = false.
Proof. intros Hs. destruct (String.eqb_spec s ""); [contradiction | reflexivity]. Qed.

(** The message of a conflict error is never empty, whatever its fields:
    an empty description is replaced by a sentence. *)
Lemma MDServerErrorConflictRevision_Error_nonempty (d : string) (x a : Z) :
  String.eqb (MDServerErrorConflictRevision_Error d x a) "" = false.
Proof.
  unfold MDServerErrorConflictRevision_Error.
  destruct (String.eqb_spec d "") as [_|Hd];
    [apply append_nonempty | exact (eqb_empty_false _ Hd)].
Qed.

Lemma MDServerErrorConflictDiskUsage_Error_nonempty (d : string) (x a : Z) :
  String.eqb (MDServerErrorConflictDiskUsage_Error d x a) "" = false.
Proof.
  unfold MDServerErrorConflictDiskUsage_Error.
  destruct (String.eqb_spec d "") as [_|Hd];
    [apply append_nonempty | exact (eqb_empty_false _ Hd)].
Qed.

Lemma MDServerErrorConflictPrevRoot_Error_nonempty `{Stringers} (d : string)
  (x a : MdID) :
  String.eqb (MDServerErrorConflictPrevRoot_Error d x a) "" = false.
Proof.
  unfold MDServerErrorConflictPrevRoot_Error.
  destruct (String.eqb_spec d "") as [_|Hd];
    [apply append_nonempty | exact (eqb_empty_false _ Hd)].
Qed.

Lemma MDServerErrorConflictFolderMapping_Error_nonempty `{Stringers} (d : string)
  (x a : TlfID) :
  String.eqb (MDServerErrorConflictFolderMapping_Error d x a) "" = false.
Proof.
  unfold MDServerErrorConflictFolderMapping_Error.
  destruct (String.eqb_spec d "") as [_|Hd];
    [apply append_nonempty | exact (eqb_empty_false _ Hd)].
Qed.

(** X1: a typed MD-server error that is exported with [ToStatus] and read
    back with [UnwrapError] comes out as an error of the same kind, with no
    dispatch error, except that a condition-failed error comes out as a
    throttle error. *)
Theorem overTheWire_kind `{Stringers} (e : error) (s : Status) :
  error_ToStatus e = Some s ->
  exists e',
    UnwrapError (ArgStatus (Some s)) = (Some e', None)
    /\ kind_of e' = match kind_of e with
                    | Some ConditionFailed => Some Throttle
                    | k => k
                    end.
Proof.
  destruct e as [err|r|d x a|d x a|d x a| |err| |[err|]|[err|]|d x a|c n d f| |m];
    cbn [error_ToStatus MDServerErrorThrottle_ToStatus
         MDServerErrorConditionFailed_ToStatus Err_Error fmap option_fmap
         option_map];
    intros Hs; try discriminate Hs; injection Hs as <-;
    eexists; (split; [reflexivity | reflexivity]).
Qed.

Lemma overTheWire_kind_witness :
  exists e',
    UnwrapError (ArgStatus (Some (MDServerErrorConflictRevision_ToStatus "" 11 10)))
    = (Some e', None)
    /\ kind_of e' = Some ConflictRevision.
Proof.
  apply (overTheWire_kind (MDServerErrorConflictRevision "" 11 10)).
  reflexivity.
Defined.

(** X2: the message survives the wire: the error that [UnwrapError] builds
    from the exported status has the [Error()] text of the original, for
    every typed MD-server error except an unauthorized error that wraps
    another error. *)
Theorem overTheWire_message `{Stringers} (e e' : error) :
  overTheWire e = Some e' ->
  (forall err, e <> MDServerErrorUnauthorized (Some err)) ->
  error_Error e' = error_Error e.
Proof.
  unfold overTheWire.
  destruct e as [err|r|d x a|d x a|d x a| |[err|]| |[err|]|[err|]|d x a|c n d f| |m];
    cbn [error_ToStatus MDServerErrorThrottle_ToStatus
         MDServerErrorConditionFailed_ToStatus Err_Error fmap option_fmap
         option_map mbind option_bind];
    intros Hw Hu; try discriminate Hw;
    try (exfalso; exact (Hu _ eq_refl));
    injection Hw as <-; cbn [error_Error]; try reflexivity.
  - f_equal. unfold MDServerErrorConflictRevision_Error at 1.
    rewrite MDServerErrorConflictRevision_Error_nonempty. reflexivity.
  - f_equal. unfold MDServerErrorConflictPrevRoot_Error at 1.
    rewrite MDServerErrorConflictPrevRoot_Error_nonempty. reflexivity.
  - f_equal. unfold MDServerErrorConflictDiskUsage_Error at 1.
    rewrite MDServerErrorConflictDiskUsage_Error_nonempty. reflexivity.
  - f_equal. unfold MDServerErrorConflictFolderMapping_Error at 1.
    rewrite MDServerErrorConflictFolderMapping_Error_nonempty. reflexivity.
Qed.

Lemma overTheWire_message_witness :
  error_Error (MDServerErrorConflictRevision
                 (MDServerErrorConflictRevision_Error "" 11 10) 0 0)
  = Some "Conflict: expected revision 11, actual 10".
Proof.
  rewrite (overTheWire_message (MDServerErrorConflictRevision "" 11 10)
             (MDServerErrorConflictRevision
                (MDServerErrorConflictRevision_Error "" 11 10) 0 0)).
  - reflexivity.
  - reflexivity.
  - intros err. discriminate.
Defined.

(** X3: an unauthorized error that wraps another error loses it on the
    wire: the client gets an unauthorized error with no wrapped error, and
    its message is shorter than the one the server had. *)
Theorem overTheWire_unauthorized `{Stringers} (err : errorString) :
  overTheWire (MDServerErrorUnauthorized (Some err))
  = Some (MDServerErrorUnauthorized None)
  /\ error_Error (MDServerErrorUnauthorized None) = Some "Unauthorized"
  /\ error_Error (MDServerErrorUnauthorized (Some err))
     = Some (String.append "Unauthorized: " (errorString_Error err))
  /\ error_Error (MDServerErrorUnauthorized None)
     <> error_Error (MDServerErrorUnauthorized (Some err)).
Proof.
  split; [reflexivity|]. split; [reflexivity|]. split; [reflexivity|].
  cbn [error_Error MDServerErrorUnauthorized_Error].
  intros Heq. injection Heq as Heq.
  apply (f_equal String.length) in Heq.
  rewrite !length_append in Heq. cbn in Heq. lia.
Qed.

(** X4: for every status with a non-zero code the unwrapper returns an
    application error and no dispatch error, and the kind of that error is
    exactly what the taxonomy says of the code: one of the eleven typed
    kinds for the codes 2800 to 2810 and none of them for any other code. *)
Theorem UnwrapError_kind (s : Status) :
  Code s <> 0 ->
  exists e,
    UnwrapError (ArgStatus (Some s)) = (Some e, None)
    /\ kind_of e = taxonomy_kind (Code s).
Proof.
  intros H0. destruct (taxonomy_kind (Code s)) as [k|] eqn:Hk.
  - destruct s as [c n d f]. cbn [Code] in *.
    unfold taxonomy_kind, taxonomy in Hk. cbn [List.find snd] in Hk.
    repeat match type of Hk with
           | context [?a =? c] =>
               destruct (Z.eqb_spec a c) as [<- | ?];
               [injection Hk as <-; eexists; split; reflexivity|]
           end.
    discriminate Hk.
  - eexists. split; [apply UnwrapError_default; assumption | reflexivity].
Qed.

Lemma UnwrapError_kind_witness :
  exists e,
    UnwrapError (ArgStatus (Some (mkStatus 2900 "OTHER" "d" []))) = (Some e, None)
    /\ kind_of e = None.
Proof.
  apply (UnwrapError_kind (mkStatus 2900 "OTHER" "d" [])). discriminate.
Defined.

(** X5: the unwrapper returns an application error exactly for a non-nil
    status with a non-zero code, and never an application error together
    with a dispatch error. *)
Theorem UnwrapError_outcomes (arg : interface_arg) :
  (fst (UnwrapError arg) <> None <->
   exists s, arg = ArgStatus (Some s) /\ Code s <> 0)
  /\ (fst (UnwrapError arg) = None \/ snd (UnwrapError arg) = None).
Proof.
  destruct arg as [[s|]|]; cbn [UnwrapError].
  - destruct (Z.eqb_spec (Code s) 0) as [Hz|Hnz]; cbn [fst snd].
    + split; [|left; reflexivity]. split; [intros Hn; contradiction|].
      intros (s' & Hs & Hc). injection Hs as <-. contradiction.
    + split; [|right; reflexivity]. split; [|discriminate].
      intros _. exists s. split; [reflexivity | exact Hnz].
  - split; [|left; reflexivity]. split; [intros Hn; contradiction|].
    intros (s' & Hs & _). discriminate Hs.
  - split; [|left; reflexivity]. split; [intros Hn; contradiction|].
    intros (s' & Hs & _). discriminate Hs.
Qed.

(** X6: for the eleven taxonomy codes the unwrapper looks at the code and
    the description only: the name and the fields of the status do not
    change what it returns. *)
Theorem UnwrapError_ignores_name (c : Z) (n n' d : string)
  (f f' : list StringKVPair) :
  2800 <= c <= 2810 ->
  UnwrapError (ArgStatus (Some (mkStatus c n d f)))
  = UnwrapError (ArgStatus (Some (mkStatus c n' d f'))).
Proof.
  intros Hc.
  assert (Hcases : c = 2800 \/ c = 2801 \/ c = 2802 \/ c = 2803 \/ c = 2804
                   \/ c = 2805 \/ c = 2806 \/ c = 2807 \/ c = 2808
                   \/ c = 2809 \/ c = 2810) by lia.
  repeat (destruct Hcases as [-> | Hcases]); try subst c; reflexivity.
Qed.

Lemma UnwrapError_ignores_name_witness :
  UnwrapError (ArgStatus (Some (mkStatus 2807 "CONDITION_FAILED" "d" [])))
  = UnwrapError (ArgStatus (Some (mkStatus 2807 "THROTTLE" "d" []))).
Proof. apply UnwrapError_ignores_name. lia. Defined.

(** ** splitExtension and the conflict renamer *)

Lemma chars_get (s : string) (i : nat) :
  String.get i s = list_ascii_of_string s !! i.
Proof.
  revert i. induction s as [|c s IH]; intros [|i]; cbn; try reflexivity.
  apply IH.
Qed.

Lemma chars_length (s : string) :
  length (list_ascii_of_string s) = String.length s.
Proof. induction s as [|c s IH]; cbn; [reflexivity | f_equal; exact IH]. Qed.

Lemma chars_append (a b : string) :
  list_ascii_of_string (String.append a b)
  = (list_ascii_of_string a ++ list_ascii_of_string b)%list.
Proof.
  induction a as [|c a IH]; [reflexivity|].
  rewrite append_cons. cbn. f_equal. exact IH.
Qed.

Lemma get_Some_lt (s : string) (i : nat) (c : ascii) :
  String.get i s = Some c -> (i < String.length s)%nat.
Proof.
  revert i. induction s as [|d s IH]; intros [|i]; cbn; try discriminate.
  - lia.
  - intros Hg. apply IH in Hg. lia.
Qed.

Lemma get_append_l (a b : string) (i : nat) :
  (i < String.length a)%nat -> String.get i (String.append a b) = String.get i a.
Proof. intros Hi. symmetry. apply append_correct1. exact Hi. Qed.

Lemma get_append_r (a b : string) (i : nat) :
  String.get (String.length a + i) (String.append a b) = String.get i b.
Proof. rewrite Nat.add_comm. symmetry. apply append_correct2. Qed.

Lemma append_assoc (a b c : string) :
  String.append (String.append a b) c = String.append a (String.append b c).
Proof.
  induction a as [|d a IH]; [reflexivity|].
  rewrite !append_cons. f_equal. exact IH.
Qed.

Lemma substring_append_l (a b : string) :
  substring 0 (String.length a) (String.append a b) = a.
Proof.
  induction a as [|c a IH]; [destruct b; reflexivity|].
  rewrite append_cons. cbn. f_equal. exact IH.
Qed.

Lemma substring_append_r (a b : string) (m : nat) :
  substring (String.length a) m (String.append a b) = substring 0 m b.
Proof.
  induction a as [|c a IH]; [reflexivity|].
  rewrite append_cons. cbn. exact IH.
Qed.

Lemma plain_string_get (s : string) (i : nat) (c : ascii) :
  plain_string s -> String.get i s = Some c -> special c = false.
Proof.
  intros Hp Hg. rewrite chars_get in Hg.
  unfold plain_string in Hp. rewrite Forall_lookup in Hp. exact (Hp i c Hg).
Qed.

Lemma special_cases (c : ascii) :
  special c = false ->
  Ascii.eqb c "." = false
  /\ (Ascii.eqb c "/" || Ascii.eqb c "\" || Ascii.eqb c " ")%bool = false.
Proof.
  unfold special.
  destruct (Ascii.eqb c "."), (Ascii.eqb c "/"), (Ascii.eqb c "\"),
    (Ascii.eqb c " "); cbn; intros Hs; try discriminate Hs; split; reflexivity.
Qed.

(** The scan passes over plain bytes. *)
Lemma loop_skip (path : string) (k i : nat) :
  (k <= i)%nat ->
  (forall j c, (k < j <= i)%nat -> String.get j path = Some c -> special c = false) ->
  splitExtension_loop path i = splitExtension_loop path k.
Proof.
  induction i as [|i IH]; intros Hk Hplain.
  - replace k with 0%nat by lia. reflexivity.
  - destruct (decide (k = S i)) as [->|Hne]; [reflexivity|].
    rewrite <- IH; [|lia|intros j c Hj; apply Hplain; lia].
    cbn [splitExtension_loop].
    destruct (String.get (S i) path) as [c|] eqn:Hg; [|reflexivity].
    destruct (special_cases c (Hplain (S i) c ltac:(lia) Hg)) as [-> ->].
    reflexivity.
Qed.

Lemma loop_at_dot (path : string) (k : nat) :
  (1 <= k)%nat -> String.get k path = Some "."%char ->
  splitExtension_loop path k = dot_split path k.
Proof.
  intros Hk Hg. destruct k as [|k]; [lia|].
  cbn [splitExtension_loop]. rewrite Hg. reflexivity.
Qed.

Lemma loop_at_stop (path : string) (k : nat) (c : ascii) :
  (1 <= k)%nat -> String.get k path = Some c ->
  Ascii.eqb c "." = false ->
  (Ascii.eqb c "/" || Ascii.eqb c "\" || Ascii.eqb c " ")%bool = true ->
  splitExtension_loop path k = (path, "").
Proof.
  intros Hk Hg Hdot Hstop. destruct k as [|k]; [lia|].
  cbn [splitExtension_loop]. rewrite Hg, Hdot, Hstop. reflexivity.
Qed.

(** Either the scan finds no extension, or it stops at a dot with only
    plain bytes after it. *)
Lemma loop_cases (path : string) (i : nat) :
  splitExtension_loop path i = (path, "")
  \/ exists k,
       (1 <= k <= i)%nat /\ String.get k path = Some "."%char
       /\ (forall j c, (k < j <= i)%nat -> String.get j path = Some c ->
                       special c = false)
       /\ splitExtension_loop path i = dot_split path k.
Proof.
  induction i as [|i IH]; [left; reflexivity|].
  destruct (String.get (S i) path) as [c|] eqn:Hg.
  - destruct (Ascii.eqb_spec c ".") as [->|Hdot].
    + right. exists (S i). split; [lia|]. split; [exact Hg|].
      split; [intros j c Hj; lia|]. apply loop_at_dot; [lia | exact Hg].
    + destruct (Ascii.eqb c "/" || Ascii.eqb c "\" || Ascii.eqb c " ")%bool
        eqn:Hstop.
      * left. apply (loop_at_stop path (S i) c); try assumption; try lia.
        destruct (Ascii.eqb_spec c "."); [contradiction | reflexivity].
      * assert (Hsp : special c = false).
        { unfold special. destruct (Ascii.eqb_spec c "."); [contradiction|].
          cbn [orb]. rewrite <- !orb_assoc in Hstop.
          destruct (Ascii.eqb c "/"), (Ascii.eqb c "\"), (Ascii.eqb c " ");
            cbn in *; congruence. }
        assert (Hstep : splitExtension_loop path (S i) = splitExtension_loop path i).
        { apply loop_skip; [lia|]. intros j d Hj Hd.
          assert (j = S i) as -> by lia. congruence. }
        rewrite Hstep.
        destruct IH as [IH | (k & Hk & Hgk & Hplain & IH)]; [left; exact IH|].
        right. exists k. split; [lia|]. split; [exact Hgk|].
        split; [|exact IH].
        intros j d Hj Hd. destruct (decide (j = S i)) as [->|Hne].
        -- congruence.
        -- apply (Hplain j d); [lia | exact Hd].
  - assert (Hstep : splitExtension_loop path (S i) = splitExtension_loop path i).
    { apply loop_skip; [lia|]. intros j d Hj Hd.
      assert (j = S i) as -> by lia. congruence. }
    rewrite Hstep.
    destruct IH as [IH | (k & Hk & Hgk & Hplain & IH)]; [left; exact IH|].
    right. exists k. split; [lia|]. split; [exact Hgk|].
    split; [|exact IH].
    intros j d Hj Hd. destruct (decide (j = S i)) as [->|Hne].
    + congruence.
    + apply (Hplain j d); [lia | exact Hd].
Qed.

Lemma chars_substring (s : string) :
  forall a m,
    list_ascii_of_string (substring a m s) = take m (drop a (list_ascii_of_string s)).
Proof.
  induction s as [|c s IH]; intros [|a] [|m]; cbn; try reflexivity.
  - f_equal. apply (IH 0%nat m).
  - rewrite (IH a 0%nat). reflexivity.
  - apply IH.
Qed.

Lemma chars_inj (a b : string) :
  list_ascii_of_string a = list_ascii_of_string b -> a = b.
Proof.
  intros Hab. rewrite <- (string_of_list_ascii_of_string a),
    <- (string_of_list_ascii_of_string b), Hab. reflexivity.
Qed.

Lemma substring_add (s : string) (a m1 m2 : nat) :
  substring a (m1 + m2) s
  = String.append (substring a m1 s) (substring (a + m1) m2 s).
Proof.
  apply chars_inj. rewrite chars_append, !chars_substring.
  rewrite <- drop_drop. symmetry. apply take_take_drop.
Qed.

Lemma slice_cons (path : string) (k : nat) (c : ascii) :
  String.get k path = Some c ->
  slice path k (String.length path)
  = String c (slice path (S k) (String.length path)).
Proof.
  intros Hg. pose proof (get_Some_lt _ _ _ Hg) as Hlt.
  apply chars_inj. unfold slice. cbn [list_ascii_of_string].
  rewrite !chars_substring. rewrite chars_get in Hg.
  rewrite (drop_S _ _ _ Hg).
  replace (String.length path - k)%nat with (S (String.length path - S k)) by lia.
  reflexivity.
Qed.

Lemma slice_mid (path : string) (a b : nat) :
  (a <= b <= String.length path)%nat ->
  slice path a (String.length path)
  = String.append (slice path a b) (slice path b (String.length path)).
Proof.
  intros Hab. unfold slice.
  replace (String.length path - a)%nat
    with ((b - a) + (String.length path - b))%nat by lia.
  rewrite substring_add. do 2 f_equal. lia.
Qed.

Lemma slice_snoc (path : string) (i : nat) (c : ascii) :
  String.get i path = Some c ->
  slice path 0 (S i) = String.append (slice path 0 i) (String c "").
Proof.
  intros Hg. apply chars_inj. unfold slice.
  rewrite chars_append, !chars_substring, !Nat.sub_0_r, !drop_0.
  rewrite chars_get in Hg. exact (take_S_r _ _ _ Hg).
Qed.

Lemma slice_plain (path : string) (k : nat) :
  (forall j c, (k < j <= String.length path - 1)%nat ->
               String.get j path = Some c -> special c = false) ->
  plain_string (slice path (S k) (String.length path)).
Proof.
  intros Hplain. unfold plain_string, slice. rewrite chars_substring.
  apply Forall_lookup. intros j c Hj.
  apply lookup_take_Some in Hj as [Hj _]. rewrite lookup_drop in Hj.
  rewrite <- chars_get in Hj.
  apply (Hplain (S k + j)%nat c); [|exact Hj].
  apply get_Some_lt in Hj. lia.
Qed.

(** X7: a path with no dot after its first byte has no extension: it is
    returned whole.  File names that only start with a dot are a case. *)
Theorem splitExtension_no_dot (path : string) :
  (forall i, (1 <= i)%nat -> String.get i path <> Some "."%char) ->
  splitExtension path = (path, "").
Proof.
  intros Hnodot. unfold splitExtension.
  destruct (loop_cases path (String.length path - 1))
    as [Hl | (k & Hk & Hg & _)]; [exact Hl|].
  exfalso. exact (Hnodot k ltac:(lia) Hg).
Qed.

Lemma splitExtension_no_dot_witness :
  splitExtension ".profile" = (".profile", "").
Proof.
  apply splitExtension_no_dot.
  intros [|[|[|[|[|[|[|[|i]]]]]]]] Hi; cbn; try lia; discriminate.
Defined.

Lemma splitExtension_shape_aux (path : string) :
  snd (splitExtension path) = ""
  \/ exists tail,
       plain_string tail
       /\ (snd (splitExtension path) = String.append "." tail
           \/ snd (splitExtension path) = String.append ".tar." tail).
Proof.
  unfold splitExtension.
  destruct (loop_cases path (String.length path - 1))
    as [Hl | (k & Hk & Hg & Hplain & Hl)]; rewrite Hl; [left; reflexivity|].
  unfold dot_split.
  destruct ((4 <=? k)%nat && String.eqb (slice path (k - 4) k) ".tar")%bool
    eqn:Htar.
  - match goal with
    | |- context [if ?b then (path, ""%string) else _] => destruct b
    end; [left; reflexivity|].
    right. exists (slice path (S k) (String.length path)).
    split; [apply slice_plain; exact Hplain|]. right. cbn [snd].
    apply andb_true_iff in Htar as [Hk4 Htar].
    apply Nat.leb_le in Hk4. apply String.eqb_eq in Htar.
    pose proof (get_Some_lt _ _ _ Hg) as Hlt.
    rewrite (slice_mid path (k - 4) k) by lia.
    rewrite Htar, (slice_cons path k "." Hg). reflexivity.
  - match goal with
    | |- context [if ?b then (path, ""%string) else _] => destruct b
    end; [left; reflexivity|].
    right. exists (slice path (S k) (String.length path)).
    split; [apply slice_plain; exact Hplain|]. left. cbn [snd].
    rewrite (slice_cons path k "." Hg). reflexivity.
Qed.

(** X8: the extension that [splitExtension] returns is empty, or a dot
    followed by plain bytes, or [.tar.] followed by plain bytes, where plain
    bytes are bytes other than a dot, a slash, a backslash and a space. *)
Theorem splitExtension_ext_shape (path : string) :
  snd (splitExtension path) = ""
  \/ exists tail,
       plain_string tail
       /\ (snd (splitExtension path) = String.append "." tail
           \/ snd (splitExtension path) = String.append ".tar." tail).
Proof. exact (splitExtension_shape_aux path). Qed.

(** X9: when [splitExtension] returns an extension, the base name is not
    empty and does not end with a slash or a backslash: a dot at the start
    of the path or right after a separator starts no extension. *)
Theorem splitExtension_base (path : string) :
  snd (splitExtension path) <> "" ->
  exists b c,
    fst (splitExtension path) = String.append b (String c "")
    /\ c <> "/"%char /\ c <> "\"%char.
Proof.
  unfold splitExtension.
  destruct (loop_cases path (String.length path - 1))
    as [Hl | (k & Hk & Hg & Hplain & Hl)]; rewrite Hl;
    [intros Hne; contradiction|].
  unfold dot_split.
  set (i2 := if ((4 <=? k)%nat && String.eqb (slice path (k - 4) k) ".tar")%bool
             then (k - 4)%nat else k).
  assert (Hi2 : (i2 <= k)%nat).
  { subst i2. destruct (_ && _)%bool; lia. }
  destruct (Nat.eqb_spec i2 0) as [Hz|Hnz]; cbn [orb];
    [intros Hne; contradiction|].
  destruct (String.get (i2 - 1) path) as [c|] eqn:Hc.
  - cbn [is_sep].
    destruct (Ascii.eqb_spec c "/") as [|Hslash]; cbn [orb];
      [intros Hne; contradiction|].
    destruct (Ascii.eqb_spec c "\") as [|Hback]; cbn [orb];
      [intros Hne; contradiction|].
    intros _. exists (slice path 0 (i2 - 1)), c. cbn [fst].
    split; [|split; assumption].
    replace i2 with (S (i2 - 1)) at 1 by lia. apply slice_snoc. exact Hc.
  - exfalso. pose proof (get_Some_lt _ _ _ Hg) as Hlt.
    assert (Hin : (i2 - 1 < String.length path)%nat) by lia.
    rewrite chars_get in Hc. apply lookup_ge_None in Hc.
    rewrite chars_length in Hc. lia.
Qed.

Lemma splitExtension_base_witness :
  exists b c,
    fst (splitExtension "dir/a.tar.gz") = String.append b (String c "")
    /\ c <> "/"%char /\ c <> "\"%char.
Proof. apply splitExtension_base. discriminate. Defined.

Lemma substring_inside (pre x : string) (a m : nat) :
  (a + m <= String.length pre)%nat ->
  substring a m (String.append pre x) = substring a m pre.
Proof.
  intros Hin. apply chars_inj. rewrite !chars_substring, chars_append.
  rewrite drop_app_le by (rewrite chars_length; lia).
  apply take_app_le. rewrite length_drop, chars_length. lia.
Qed.

Lemma not_sep_is_sep (c : ascii) :
  c <> "/"%char -> c <> "\"%char -> is_sep (Some c) = false.
Proof.
  intros Hs Hb. cbn [is_sep].
  destruct (Ascii.eqb_spec c "/"); [contradiction|].
  destruct (Ascii.eqb_spec c "\"); [contradiction|]. reflexivity.
Qed.

(** The scan of [pre ++ x] when [x] starts with a dot at its index [d] and
    has only plain bytes after it stops at that dot. *)
Lemma loop_finds_dot (pre x : string) (d : nat) :
  String.get d x = Some "."%char ->
  (forall j c, (d < j)%nat -> String.get j x = Some c -> special c = false) ->
  (1 <= String.length pre)%nat ->
  splitExtension (String.append pre x)
  = dot_split (String.append pre x) (String.length pre + d).
Proof.
  intros Hd Hplain Hpre. unfold splitExtension.
  assert (Hg : String.get (String.length pre + d) (String.append pre x)
               = Some "."%char) by (rewrite get_append_r; exact Hd).
  pose proof (get_Some_lt _ _ _ Hg) as Hlt.
  rewrite (loop_skip _ (String.length pre + d)); [|lia|].
  - apply loop_at_dot; [lia | exact Hg].
  - intros j c Hj Hc.
    replace j with (String.length pre + (j - String.length pre))%nat in Hc by lia.
    rewrite get_append_r in Hc. apply (Hplain (j - String.length pre)%nat c); [lia|exact Hc].
Qed.

Lemma dot_tail_plain (tail : string) (j : nat) (c : ascii) :
  plain_string tail -> (0 < j)%nat ->
  String.get j (String "." tail) = Some c -> special c = false.
Proof.
  intros Hp Hj Hc. destruct j as [|j]; [lia|]. cbn in Hc.
  exact (plain_string_get _ _ _ Hp Hc).
Qed.

Lemma get_last (p : string) (c : ascii) :
  String.get (String.length p) (String.append p (String c "")) = Some c.
Proof.
  rewrite <- (Nat.add_0_r (String.length p)), get_append_r. reflexivity.
Qed.

Lemma splitExtension_dot_aux (p tail : string) (c0 : ascii) :
  let pre := String.append p (String c0 "") in
  c0 <> "/"%char -> c0 <> "\"%char ->
  (forall q, pre <> String.append q ".tar") ->
  plain_string tail ->
  splitExtension (String.append pre (String "." tail)) = (pre, String "." tail).
Proof.
  intros pre Hs Hb Hnotar Hplain.
  assert (Hlen : String.length pre = S (String.length p)).
  { subst pre. rewrite length_append. cbn. lia. }
  rewrite (loop_finds_dot pre (String "." tail) 0);
    [|reflexivity|intros j c; apply dot_tail_plain; exact Hplain|lia].
  rewrite Nat.add_0_r. unfold dot_split.
  assert (Htar : ((4 <=? String.length pre)%nat
                  && String.eqb (slice (String.append pre (String "." tail))
                                   (String.length pre - 4) (String.length pre))
                       ".tar")%bool = false).
  { destruct (Nat.leb_spec 4 (String.length pre)) as [H4|H4]; [|reflexivity].
    cbn [andb]. apply String.eqb_neq. intros Heq. unfold slice in Heq.
    replace (String.length pre - (String.length pre - 4))%nat with 4%nat in Heq by lia.
    rewrite substring_inside in Heq by lia.
    apply (Hnotar (substring 0 (String.length pre - 4) pre)).
    rewrite <- Heq.
    pose proof (substring_add pre 0 (String.length pre - 4) 4) as Hadd.
    cbn [Nat.add] in Hadd. rewrite <- Hadd.
    replace (String.length pre - 4 + 4)%nat with (String.length pre) by lia.
    symmetry. apply substring_whole. }
  rewrite Htar.
  destruct (Nat.eqb_spec (String.length pre) 0) as [Hz|_]; [lia|]. cbn [orb].
  assert (Hc0 : String.get (String.length pre - 1)
                  (String.append pre (String "." tail)) = Some c0).
  { rewrite get_append_l by lia. rewrite Hlen. cbn [Nat.sub].
    rewrite Nat.sub_0_r. apply get_last. }
  rewrite Hc0, (not_sep_is_sep c0 Hs Hb).
  unfold slice. rewrite Nat.sub_0_r, substring_append_l, substring_append_r.
  rewrite length_append.
  replace (String.length pre + String.length (String "." tail) - String.length pre)%nat
    with (String.length (String "." tail)) by lia.
  rewrite substring_whole. reflexivity.
Qed.

Lemma splitExtension_tar_aux (p tail : string) (c0 : ascii) :
  let pre := String.append p (String c0 "") in
  c0 <> "/"%char -> c0 <> "\"%char ->
  plain_string tail ->
  splitExtension (String.append pre (String.append ".tar." tail))
  = (pre, String.append ".tar." tail).
Proof.
  intros pre Hs Hb Hplain.
  assert (Hlen : String.length pre = S (String.length p)).
  { subst pre. rewrite length_append. cbn. lia. }
  rewrite (loop_finds_dot pre (String.append ".tar." tail) 4);
    [|reflexivity| |lia].
  2:{ intros j c Hj Hc. do 5 (destruct j as [|j]; [lia|]). cbn in Hc.
      exact (plain_string_get _ _ _ Hplain Hc). }
  unfold dot_split.
  assert (Htar : ((4 <=? String.length pre + 4)%nat
                  && String.eqb
                       (slice (String.append pre (String.append ".tar." tail))
                          (String.length pre + 4 - 4) (String.length pre + 4))
                       ".tar")%bool = true).
  { apply andb_true_iff. split; [apply Nat.leb_le; lia|].
    apply String.eqb_eq. unfold slice.
    replace (String.length pre + 4 - 4)%nat with (String.length pre) by lia.
    replace (String.length pre + 4 - String.length pre)%nat with 4%nat by lia.
    rewrite substring_append_r. reflexivity. }
  rewrite Htar.
  replace (String.length pre + 4 - 4)%nat with (String.length pre) by lia.
  destruct (Nat.eqb_spec (String.length pre) 0) as [Hz|_]; [lia|]. cbn [orb].
  assert (Hc0 : String.get (String.length pre - 1)
                  (String.append pre (String.append ".tar." tail)) = Some c0).
  { rewrite get_append_l by lia. rewrite Hlen. cbn [Nat.sub].
    rewrite Nat.sub_0_r. apply get_last. }
  rewrite Hc0, (not_sep_is_sep c0 Hs Hb).
  unfold slice. rewrite Nat.sub_0_r, substring_append_l, substring_append_r.
  rewrite length_append.
  replace (String.length pre + String.length (String.append ".tar." tail)
           - String.length pre)%nat
    with (String.length (String.append ".tar." tail)) by lia.
  rewrite substring_whole. reflexivity.
Qed.

Lemma splitExtension_space_aux (a b : string) :
  a <> "" -> plain_string b ->
  splitExtension (String.append a (String " " b))
  = (String.append a (String " " b), "").
Proof.
  intros Ha Hplain.
  assert (Hlen : (1 <= String.length a)%nat).
  { destruct a; [contradiction | cbn; lia]. }
  set (path := String.append a (String " " b)).
  assert (Hg : String.get (String.length a) path = Some " "%char).
  { subst path. rewrite <- (Nat.add_0_r (String.length a)), get_append_r.
    reflexivity. }
  pose proof (get_Some_lt _ _ _ Hg) as Hlt.
  unfold splitExtension.
  rewrite (loop_skip path (String.length a)); [|lia|].
  - apply (loop_at_stop path _ " "); [lia | exact Hg | reflexivity | reflexivity].
  - intros j c Hj Hc. subst path.
    replace j with (String.length a + (j - String.length a))%nat in Hc by lia.
    rewrite get_append_r in Hc.
    destruct (j - String.length a)%nat as [|j'] eqn:Hj'; [lia|].
    cbn in Hc. exact (plain_string_get _ _ _ Hplain Hc).
Qed.

(** X10: a dot followed by plain bytes is split off as the extension when
    what comes before it ends with a byte that is not a separator and does
    not end with [.tar]. *)
Theorem splitExtension_finds_extension (p tail : string) (c0 : ascii) :
  c0 <> "/"%char -> c0 <> "\"%char ->
  (forall q, String.append p (String c0 "") <> String.append q ".tar") ->
  plain_string tail ->
  splitExtension (String.append (String.append p (String c0 "")) (String "." tail))
  = (String.append p (String c0 ""), String "." tail).
Proof. exact (splitExtension_dot_aux p tail c0). Qed.

Lemma splitExtension_finds_extension_witness :
  splitExtension "notes v2.txt" = ("notes v2", ".txt").
Proof.
  apply (splitExtension_finds_extension "notes v" "txt" "2").
  - discriminate.
  - discriminate.
  - intros q Hq. pose proof (f_equal String.length Hq) as Hl.
    rewrite !length_append in Hl. cbn in Hl.
    assert (Hlen : String.length q = 4%nat) by lia.
    do 5 (destruct q as [|? q]; try discriminate Hlen).
    vm_compute in Hq. congruence.
  - repeat constructor.
Defined.

(** X11: a two-part extension [.tar.] followed by plain bytes is split off
    whole when what comes before it ends with a byte that is not a
    separator. *)
Theorem splitExtension_finds_tar (p tail : string) (c0 : ascii) :
  c0 <> "/"%char -> c0 <> "\"%char ->
  plain_string tail ->
  splitExtension (String.append (String.append p (String c0 ""))
                    (String.append ".tar." tail))
  = (String.append p (String c0 ""), String.append ".tar." tail).
Proof. exact (splitExtension_tar_aux p tail c0). Qed.

Lemma splitExtension_finds_tar_witness :
  splitExtension "backup.tar.gz" = ("backup", ".tar.gz").
Proof.
  apply (splitExtension_finds_tar "backu" "gz" "p");
    [discriminate | discriminate | repeat constructor].
Defined.

Section ConflictRenamer.
Context {Time : Type} {dateFormat : DateFormat Time}.

Lemma plain_date_paren (date : string) :
  plain_string date -> plain_string (String.append date ")").
Proof.
  unfold plain_string. rewrite chars_append. intros Hd.
  apply Forall_app. split; [exact Hd | repeat constructor].
Qed.

Lemma paren_not_tar (p q : string) :
  String.append p ")" <> String.append q ".tar".
Proof.
  intros Heq. apply (f_equal list_ascii_of_string) in Heq.
  rewrite !chars_append in Heq.
  change (list_ascii_of_string ".tar")
    with (["."; "t"; "a"]%char ++ ["r"%char])%list in Heq.
  change (list_ascii_of_string ")") with [")"%char] in Heq.
  rewrite app_assoc in Heq. apply app_inj_tail in Heq as [_ Heq].
  discriminate Heq.
Qed.

(** The renamed name, as base, marker and extension. *)
Lemma ConflictRenameHelper_parts (t : Time) (user device original : string) :
  let dev := if String.eqb device "" then "unknown" else device in
  let p := String.concat ""
             [fst (splitExtension original); ".conflicted ("; user; "'s "; dev;
              " copy "; Format_date t] in
  ConflictRenameHelper t user device original
  = String.append (String.append p ")") (snd (splitExtension original)).
Proof.
  intros dev p. subst p. unfold ConflictRenameHelper. fold dev.
  apply chars_inj. cbn [String.concat].
  repeat first [rewrite chars_append | progress cbn [list_ascii_of_string]
               | rewrite <- app_assoc | progress cbn [app]
               | rewrite app_nil_r].
  reflexivity.
Qed.

Lemma ConflictRenameHelper_no_ext (t : Time) (user device original : string) :
  let dev := if String.eqb device "" then "unknown" else device in
  let a := String.concat ""
             [fst (splitExtension original); ".conflicted ("; user; "'s "; dev;
              " copy"] in
  snd (splitExtension original) = "" ->
  ConflictRenameHelper t user device original
  = String.append a (String " " (String.append (Format_date t) ")")).
Proof.
  intros dev a Hext. subst a. unfold ConflictRenameHelper. fold dev.
  rewrite Hext. apply chars_inj. cbn [String.concat].
  repeat first [rewrite chars_append | progress cbn [list_ascii_of_string]
               | rewrite <- app_assoc | progress cbn [app]
               | rewrite app_nil_r].
  reflexivity.
Qed.

(** X12: renaming keeps the extension: the extension of the name that
    [ConflictRenameHelper] makes is the extension of the original name,
    provided the formatted date has no dot, slash, backslash or space (a
    date printed with the layout 2006-01-02 has none). *)
Theorem ConflictRenameHelper_keeps_extension (t : Time)
  (user device original : string) :
  plain_string (Format_date t) ->
  snd (splitExtension (ConflictRenameHelper t user device original))
  = snd (splitExtension original).
Proof.
  intros Hdate.
  destruct (string_dec (snd (splitExtension original)) "") as [Hext|Hext].
  - rewrite (ConflictRenameHelper_no_ext t user device original Hext).
    rewrite splitExtension_space_aux.
    + rewrite Hext. reflexivity.
    + intros Hempty. apply (f_equal String.length) in Hempty.
      cbn [String.concat] in Hempty. rewrite !length_append in Hempty.
      cbn in Hempty. lia.
    + apply plain_date_paren. exact Hdate.
  - rewrite ConflictRenameHelper_parts.
    set (p := String.concat "" _).
    destruct (splitExtension_shape_aux original)
      as [Hnone | (tail & Hplain & [Hshape | Hshape])]; [contradiction| |];
      rewrite Hshape.
    + change (String.append "." tail) with (String "." tail).
      rewrite (splitExtension_dot_aux p tail ")");
        [reflexivity | discriminate | discriminate | | exact Hplain].
      intros q. apply paren_not_tar.
    + rewrite (splitExtension_tar_aux p tail ")");
        [reflexivity | discriminate | discriminate | exact Hplain].
Qed.

(** X13: the renamed name is longer than the original by the marker: 23
    bytes of fixed text plus the user, the device (seven bytes for
    [unknown] when the device name is empty) and the date. *)
Theorem ConflictRenameHelper_length (t : Time) (user device original : string) :
  String.length (ConflictRenameHelper t user device original)
  = (String.length original + 23 + String.length user
     + String.length (if String.eqb device "" then "unknown" else device)
     + String.length (Format_date t))%nat.
Proof.
  pose proof (f_equal String.length
                (splitExtension_loop_concat original
                   (String.length original - 1))) as Hlen.
  rewrite length_append in Hlen. fold (splitExtension original) in Hlen.
  unfold ConflictRenameHelper. cbn [String.concat].
  rewrite !length_append. cbn [String.length]. lia.
Qed.

End ConflictRenamer.

(** X14: a writer whose key has no device name in the user's [KIDNames] is
    named [unknown] in the conflict name: the name made from
    [newWriterInfo]'s result is the one made for the device [unknown]. *)
Theorem ConflictRename_unknown_device {Time} `{DateFormat Time}
  `{KeybaseService} (ctx : context) (uid : UID) (kid : KID) (ui : UserInfo)
  (now : Time) (original : string) :
  LoadUserPlusKeys ctx uid = Ok ui ->
  ui_KIDNames ui !! kid = None ->
  snd (newWriterInfo ctx uid kid) = None
  /\ ConflictRename now (fst (newWriterInfo ctx uid kid)) original
     = ConflictRenameHelper now (ui_Name ui) "unknown" original.
Proof.
  intros Hload Hkid. unfold newWriterInfo. rewrite Hload, Hkid.
  split; reflexivity.
Qed.

Lemma exampleDate_plain : plain_string (Format_date 4%nat).
Proof. vm_compute. repeat constructor. Qed.

Lemma ConflictRenameHelper_keeps_extension_witness :
  snd (splitExtension
         (ConflictRenameHelper 4%nat "alice" "laptop" "dir/report.tar.gz"))
  = snd (splitExtension "dir/report.tar.gz").
Proof.
  apply ConflictRenameHelper_keeps_extension. exact exampleDate_plain.
Defined.

Example ConflictRenameHelper_example :
  ConflictRenameHelper 4%nat "alice" "" "dir/report.tar.gz"
  = "dir/report.conflicted (alice's unknown copy 2016-07-04).tar.gz".
Proof. vm_compute. reflexivity. Qed.

Lemma ConflictRename_unknown_device_witness :
  snd (newWriterInfo Background "uid1" "kid2") = None
  /\ ConflictRename 4%nat (fst (newWriterInfo Background "uid1" "kid2")) "a.txt"
     = ConflictRenameHelper 4%nat "alice" "unknown" "a.txt".
Proof.
  apply (ConflictRename_unknown_device Background "uid1" "kid2"
           (mkUserInfo "alice" {[ "kid1" := "laptop" ]}) 4%nat "a.txt").
  - reflexivity.
  - vm_compute. reflexivity.
Defined.

(** ** The test doubles and helpers *)

Lemma limited_Sign_exhausted {Sg} `{cryptoSigner Sg} (ctx : context) (m : Bytes)
  (s : Sg) (r : Z) :
  r <= 0 ->
  Sign ctx m (mkLimitedCryptoSigner s r)
  = (Err noMoreSigns, mkLimitedCryptoSigner s r).
Proof.
  intros Hr.
  change (Sign ctx m (mkLimitedCryptoSigner s r))
    with (limitedCryptoSigner_Sign ctx m (mkLimitedCryptoSigner s r)).
  unfold limitedCryptoSigner_Sign. cbn [remaining inner].
  destruct (Z.leb_spec r 0) as [_|Hpos]; [reflexivity | lia].
Qed.

Lemma limited_Sign_live {Sg} `{cryptoSigner Sg} (ctx : context) (m : Bytes)
  (s : Sg) (r : Z) :
  0 < r ->
  Sign ctx m (mkLimitedCryptoSigner s r)
  = (fst (Sign ctx m s), mkLimitedCryptoSigner (snd (Sign ctx m s)) (r - 1)).
Proof.
  intros Hr.
  change (Sign ctx m (mkLimitedCryptoSigner s r))
    with (limitedCryptoSigner_Sign ctx m (mkLimitedCryptoSigner s r)).
  unfold limitedCryptoSigner_Sign. cbn [remaining inner].
  destruct (Z.leb_spec r 0) as [Hneg|_]; [lia | reflexivity].
Qed.

Lemma limited_exhausted {Sg} `{cryptoSigner Sg} (ctx : context) (msgs : list Bytes)
  (s : Sg) (r : Z) :
  r <= 0 ->
  signAll ctx msgs (mkLimitedCryptoSigner s r)
  = (replicate (length msgs) (Err noMoreSigns), mkLimitedCryptoSigner s r).
Proof.
  intros Hr. induction msgs as [|m ms IH]; [reflexivity|].
  cbn [signAll]. rewrite limited_Sign_exhausted by exact Hr.
  cbn [fst snd]. rewrite IH. reflexivity.
Qed.

(** X15: a limited signer with [remaining = r] lets the first [r] calls of
    a run through to the signer it wraps, whatever they return, and answers
    every later call with its own error without calling the wrapped signer;
    [remaining] goes down by one per call let through.  With [r <= 0] no
    call gets through and the signer does not change. *)
Theorem limitedCryptoSigner_budget {Sg} `{cryptoSigner Sg} (ctx : context)
  (msgs : list Bytes) (s : Sg) (r : Z) :
  let n := Z.to_nat r in
  let through := signAll ctx (take n msgs) s in
  signAll ctx msgs (mkLimitedCryptoSigner s r)
  = ((fst through ++ replicate (length msgs - n) (Err noMoreSigns))%list,
     mkLimitedCryptoSigner (snd through)
       (r - Z.of_nat (Nat.min n (length msgs)))).
Proof.
  revert s r. induction msgs as [|m ms IH]; intros s r n through.
  - subst through. rewrite take_nil. cbn. rewrite Nat.min_0_r, Z.sub_0_r.
    reflexivity.
  - destruct (Z.leb_spec r 0) as [Hr|Hr].
    + rewrite limited_exhausted by exact Hr.
      subst through n. replace (Z.to_nat r) with 0%nat by lia.
      cbn. rewrite Z.sub_0_r. reflexivity.
    + cbn [signAll]. rewrite limited_Sign_live by exact Hr. cbn [fst snd].
      rewrite IH. subst through n.
      replace (Z.to_nat r) with (S (Z.to_nat (r - 1))) by lia.
      cbn [take signAll fst snd length Nat.sub app].
      f_equal. f_equal.
      rewrite <- Nat.succ_min_distr. lia.
Qed.

Example limitedCryptoSigner_budget_example :
  fst (signAll Background ["a"; "b"; "c"] (mkLimitedCryptoSigner exampleSigner 2))
  = [Ok (localSign exampleSigner "a"); Ok (localSign exampleSigner "b");
     Err noMoreSigns].
Proof. reflexivity. Qed.

(** X16: signing a revision takes two signatures.  With a limited signer,
    [signRMDS] succeeds only when at least two calls remain and then uses
    exactly two; with fewer than two it fails. *)
Theorem signRMDS_two_signatures {Sg} `{cryptoSigner Sg} `{Codec} (ctx : context)
  (md : BareRootMetadata) (s : Sg) (r : Z) :
  (forall x s', signRMDS ctx md (mkLimitedCryptoSigner s r) = (Ok x, s') ->
                2 <= r /\ remaining s' = r - 2)
  /\ (r < 2 -> exists e s',
        signRMDS ctx md (mkLimitedCryptoSigner s r) = (Err e, s')).
Proof.
  unfold signRMDS.
  destruct (Z.leb_spec r 0) as [Hr|Hr].
  - rewrite limited_Sign_exhausted by exact Hr.
    split; [intros x s' Hx; discriminate Hx | intros _; eauto].
  - rewrite limited_Sign_live by exact Hr.
    destruct (Sign ctx (GetSerializedWriterMetadata md) s) as [[wsig|e1] s1];
      cbn [fst snd]; [|split; [intros x s' Hx; discriminate Hx | intros _; eauto]].
    destruct (Z.leb_spec (r - 1) 0) as [Hr1|Hr1].
    + rewrite limited_Sign_exhausted by exact Hr1.
      split; [intros x s' Hx; discriminate Hx | intros _; eauto].
    + rewrite limited_Sign_live by exact Hr1.
      destruct (Sign ctx (Encode (SetWriterMetadataSigInfo wsig md)) s1)
        as [[rsig|e2] s2]; cbn [fst snd].
      * split; [|intros Hlt; lia].
        intros x s' Hx. injection Hx as <- <-. cbn [remaining]. lia.
      * split; [intros x s' Hx; discriminate Hx | intros _; eauto].
Qed.

Lemma signRMDS_two_signatures_witness :
  exists e s',
    signRMDS Background (MD (rmds singleEntry))
      (mkLimitedCryptoSigner exampleSigner 1) = (Err e, s').
Proof.
  apply (proj2 (signRMDS_two_signatures Background (MD (rmds singleEntry))
                  exampleSigner 1)).
  lia.
Defined.

(** X17: when [signRMDS] succeeds, the writer signature it stores is the
    signature of the serialized writer metadata, the root signature is the
    signature, made next, of the encoding of the metadata with that writer
    signature in it, and no other field of the metadata changes. *)
Theorem signRMDS_signatures {Sg} `{cryptoSigner Sg} `{Codec} (ctx : context)
  (md : BareRootMetadata) (s s' : Sg) (x : RootMetadataSigned) :
  signRMDS ctx md s = (Ok x, s') ->
  exists s1,
    Sign ctx (GetSerializedWriterMetadata md) s
    = (Ok (WriterMetadataSigInfo (MD x)), s1)
    /\ Sign ctx (Encode (MD x)) s1 = (Ok (SigInfo x), s')
    /\ MD x = SetWriterMetadataSigInfo (WriterMetadataSigInfo (MD x)) md.
Proof.
  unfold signRMDS.
  destruct (Sign ctx (GetSerializedWriterMetadata md) s) as [[wsig|e1] s1];
    [|discriminate].
  destruct (Sign ctx (Encode (SetWriterMetadataSigInfo wsig md)) s1)
    as [[rsig|e2] s2] eqn:Hroot; [|discriminate].
  intros Hx. injection Hx as <- <-. exists s1. cbn [MD SigInfo].
  split; [reflexivity|]. split; [exact Hroot | reflexivity].
Qed.

Lemma signRMDS_signatures_witness :
  exists s1,
    Sign Background (GetSerializedWriterMetadata (MD (rmds singleEntry)))
      exampleSigner
    = (Ok (WriterMetadataSigInfo (MD (rmds singleEntry))), s1)
    /\ Sign Background (Encode (MD (rmds singleEntry))) s1
       = (Ok (SigInfo (rmds singleEntry)), exampleSigner)
    /\ MD (rmds singleEntry)
       = SetWriterMetadataSigInfo (WriterMetadataSigInfo (MD (rmds singleEntry)))
           (MD (rmds singleEntry)).
Proof.
  apply (signRMDS_signatures Background (MD (rmds singleEntry)) exampleSigner
           exampleSigner (rmds singleEntry)).
  vm_compute. reflexivity.
Defined.

Lemma shimMDServer_Put_no_error (ctx : context) (r : RootMetadataSigned)
  (s : shimMDServer) :
  nextErr s = None ->
  shimMDServer_Put ctx r s
  = (ctx_Err ctx, mkShimMDServer (rmdses s ++ [r]) (nextGetRange s) None).
Proof.
  intros Hnext. unfold shimMDServer_Put, ctx_Err. rewrite Hnext.
  destruct (ctx_done ctx); reflexivity.
Qed.

Lemma putAll_no_error (ctx : context) (rs : list RootMetadataSigned) :
  forall s,
    nextErr s = None ->
    putAll ctx rs s
    = (replicate (length rs) (ctx_Err ctx),
       mkShimMDServer (rmdses s ++ rs) (nextGetRange s) None).
Proof.
  induction rs as [|r rs IH]; intros s Hnext.
  - destruct s as [recorded range next]. cbn [nextErr] in Hnext. subst next.
    cbn. rewrite app_nil_r. reflexivity.
  - cbn [putAll]. rewrite shimMDServer_Put_no_error by exact Hnext.
    cbn [fst snd]. rewrite IH by reflexivity.
    cbn [fst snd rmdses nextGetRange length replicate].
    rewrite <- app_assoc. reflexivity.
Qed.

Lemma putAll_run (ctx : context) (rs : list RootMetadataSigned)
  (s : shimMDServer) :
  rmdses (snd (putAll ctx rs s))
  = (rmdses s ++ match nextErr s with Some _ => tail rs | None => rs end)%list
  /\ fst (putAll ctx rs s)
     = match nextErr s, rs with
       | Some e, _ :: rest => Some e :: replicate (length rest) (ctx_Err ctx)
       | _, _ => replicate (length rs) (ctx_Err ctx)
       end
  /\ nextGetRange (snd (putAll ctx rs s)) = nextGetRange s
  /\ (rs <> [] -> nextErr (snd (putAll ctx rs s)) = None).
Proof.
  destruct (nextErr s) as [e|] eqn:Hnext.
  - destruct rs as [|r rest].
    + cbn. rewrite app_nil_r. repeat split. intros Hne. contradiction.
    + cbn [putAll].
      assert (Hput : shimMDServer_Put ctx r s
                     = (Some e, mkShimMDServer (rmdses s) (nextGetRange s) None)).
      { unfold shimMDServer_Put. rewrite Hnext. reflexivity. }
      rewrite Hput. cbn [fst snd]. rewrite putAll_no_error by reflexivity.
      cbn [fst snd rmdses nextGetRange nextErr tail]. repeat split.
  - rewrite putAll_no_error by exact Hnext.
    cbn [fst snd rmdses nextGetRange nextErr].
    repeat split.
Qed.

(** X18: over a run of puts the shim server records every revision, in
    order, except the one put that is answered with the armed error; it
    records a put even when it answers it with the cancellation of the
    context.  The armed error is returned once, by the first put, and the
    armed range is left alone. *)
Theorem shimMDServer_putAll (ctx : context) (rs : list RootMetadataSigned)
  (s : shimMDServer) :
  rmdses (snd (putAll ctx rs s))
  = (rmdses s ++ match nextErr s with Some _ => tail rs | None => rs end)%list
  /\ fst (putAll ctx rs s)
     = match nextErr s, rs with
       | Some e, _ :: rest => Some e :: replicate (length rest) (ctx_Err ctx)
       | _, _ => replicate (length rs) (ctx_Err ctx)
       end
  /\ nextGetRange (snd (putAll ctx rs s)) = nextGetRange s
  /\ (rs <> [] -> nextErr (snd (putAll ctx rs s)) = None).
Proof. exact (putAll_run ctx rs s). Qed.

Example shimMDServer_putAll_cancelled :
  putAll (WithCancel_cancelled Background) [rmds singleEntry] emptyShim
  = ([Some contextCanceled], mkShimMDServer [rmds singleEntry] [] None).
Proof. reflexivity. Qed.

(** X19: the range armed in the shim server is handed out once: after any
    run of puts the next [GetRange], whatever its arguments, returns it,
    and the one after that returns the empty range; neither changes what
    the server has recorded. *)
Theorem shimMDServer_GetRange_once (ctx ctx1 ctx2 : context)
  (rs : list RootMetadataSigned) (s : shimMDServer)
  (id1 id2 : TlfID) (bid1 bid2 : BranchID) (m1 m2 : MergeStatus)
  (a1 b1 a2 b2 : MetadataRevision) :
  let s1 := snd (putAll ctx rs s) in
  let g1 := GetRange ctx1 id1 bid1 m1 a1 b1 s1 in
  let g2 := GetRange ctx2 id2 bid2 m2 a2 b2 (snd g1) in
  fst g1 = Ok (nextGetRange s)
  /\ fst g2 = Ok []
  /\ rmdses (snd g2) = rmdses s1
  /\ nextErr (snd g2) = nextErr s1.
Proof.
  intros s1 g1 g2. subst g2 g1. cbn [GetRange shimMDServer_MDServer].
  unfold shimMDServer_GetRange. cbn [fst snd rmdses nextGetRange nextErr].
  subst s1.
  destruct (putAll_run ctx rs s) as (_ & _ & Hrange & _).
  rewrite Hrange. repeat split.
Qed.

(** X20: [FakeBranchID] is one-to-one, and it makes the null branch id
    exactly from the zero byte: every other byte gives the id of a
    branch. *)
Theorem FakeBranchID_null (b b' : ascii) :
  (FakeBranchID b = FakeBranchID b' -> b = b')
  /\ (FakeBranchID b = NullBranchID <-> b = zero_byte).
Proof.
  unfold FakeBranchID, NullBranchID, BranchIDByteLen.
  cbn [zero_bytes Nat.sub]. split; [|split].
  - intros Heq. injection Heq as ->. reflexivity.
  - intros Heq. injection Heq as ->. reflexivity.
  - intros ->. reflexivity.
Qed.

(** X21: [fakeTlfIDByte] gives back the byte a fake TLF id was made from;
    the id has 16 bytes and its last byte is the suffix of its
    visibility. *)
Theorem FakeTlfID_round_trip `{TlfIDSuffixes} (b : ascii) (public : bool) :
  fakeTlfIDByte (FakeTlfID b public) = b
  /\ String.length (FakeTlfID b public) = TlfIDByteLen
  /\ String.get (TlfIDByteLen - 1) (FakeTlfID b public)
     = Some (if public then PubTlfIDSuffix else TlfIDSuffix).
Proof.
  unfold fakeTlfIDByte, FakeTlfID, TlfIDByteLen.
  destruct public; cbn; repeat split.
Qed.

(** The argument that [MakeArg] hands to the decoder unwraps to no error
    as long as nothing was decoded into it. *)
Example UnwrapError_MakeArg : UnwrapError MakeArg = (None, None).
Proof. reflexivity. Qed.
